(** * SignalFlow social automator: templates, posts and the activity journal

    A shallow embedding of the workspace logic of [src/app/layout.tsx]
    (the page component and its helpers): the placeholder extractor and the
    message merger, the template registry, the post workflow with the
    approval queue that drives it, and the bounded activity journal.

    Conventions.
    - A JavaScript string is the list of its UTF-16 code units, each an [N].
      The regular expressions of the source carry no [u] flag, so they work
      on code units, and so does [String.prototype.trim].
    - [Record<string, string>] is a plain object: a finite map of its own
      entries, behind which a read finds the members of [Object.prototype].
      The text such a member turns into depends on the engine and is an
      input, [inherited_text].
    - [createId()] and [new Date().toISOString()] are inputs of the
      operations that call them, one input for each call.
    - [usageCount] is a JavaScript number that holds a count.  It is the [Z]
      of an integer-valued double, and [+ 1] rounds as the addition of
      doubles does. *)

From Stdlib Require Import ZArith NArith Lia.
From Stdlib Require Import Strings.String Strings.Ascii.
From stdpp Require Import base option list gmap.

Local Open Scope Z_scope.

(** ** Strings *)

Module Js.

Abbreviation jsstring := (list N).

(** The code units of an ASCII literal. *)
Definition js (s : string) : jsstring :=
  List.map N_of_ascii (list_ascii_of_string s).

Definition lbrace : N := 123%N.
Definition rbrace : N := 125%N.
Definition comma : N := 44%N.

(** A string is truthy when it is not empty. *)
Definition truthy (s : jsstring) : bool :=
  match s with [] => false | _ :: _ => true end.

(** An optional string ([string | undefined]) is truthy when it is defined
    and not empty. *)
Definition truthy_opt (o : option jsstring) : bool :=
  match o with Some s => truthy s | None => false end.

(** WhiteSpace and LineTerminator code units, the ones [trim] removes. *)
Definition is_space (c : N) : bool :=
  ((9 <=? c) && (c <=? 13) || (c =? 32) || (c =? 160) || (c =? 5760)
   || (8192 <=? c) && (c <=? 8202) || (c =? 8232) || (c =? 8233)
   || (c =? 8239) || (c =? 8287) || (c =? 12288) || (c =? 65279))%N.

Fixpoint trimStart (s : jsstring) : jsstring :=
  match s with
  | [] => []
  | c :: t => if is_space c then trimStart t else s
  end.

Definition trimEnd (s : jsstring) : jsstring := rev (trimStart (rev s)).

Definition trim (s : jsstring) : jsstring := trimEnd (trimStart s).

(** [s.split(",")] *)
Fixpoint split_comma (s : jsstring) : list jsstring :=
  match s with
  | [] => [[]]
  | c :: t =>
      if (c =? comma)%N then [] :: split_comma t
      else match split_comma t with
           | h :: r => (c :: h) :: r
           | [] => [[c]]
           end
  end.

(** [parts.join(sep)] *)
Fixpoint join (sep : jsstring) (parts : list jsstring) : jsstring :=
  match parts with
  | [] => []
  | [p] => p
  | p :: rest => p ++ sep ++ join sep rest
  end.

(** [raw.split(",").map((x) => x.trim()).filter(Boolean)] *)
Definition split_trim_filter (raw : jsstring) : list jsstring :=
  List.filter truthy (List.map trim (split_comma raw)).

(** *** The regular expression [/\{([^}]+)\}/g]

    An attempt at the start of [s] needs [{], then the longest run of code
    units other than [}], which must not be empty, then [}].  The run is
    greedy, and giving characters back never helps: the code unit after a
    shorter run is not a [}]. *)

Fixpoint span_not_rbrace (s : jsstring) : jsstring * jsstring :=
  match s with
  | [] => ([], [])
  | c :: t =>
      if (c =? rbrace)%N then ([], s)
      else let '(run, rest) := span_not_rbrace t in (c :: run, rest)
  end.

(** The capture group and the text after the match, when the expression
    matches at the start of [s]. *)
Definition match_here (s : jsstring) : option (jsstring * jsstring) :=
  match s with
  | c :: t =>
      if (c =? lbrace)%N then
        match span_not_rbrace t with
        | (x :: run, _ :: rest) => Some (x :: run, rest)
        | _ => None
        end
      else None
  | [] => None
  end.

(** The global scan: the successive matches, left to right and without
    overlap, and the code units between them. *)
Inductive piece :=
  | Lit (c : N)
  | Tok (capture : jsstring).

(** The matched text of a capture. *)
Definition token_of (capture : jsstring) : jsstring :=
  lbrace :: capture ++ [rbrace].

Definition piece_text (p : piece) : jsstring :=
  match p with
  | Lit c => [c]
  | Tok capture => token_of capture
  end.

(** [skip] is the number of code units left before [lastIndex], the end of
    the match that was found last. *)
Fixpoint scan_from (skip : nat) (s : jsstring) : list piece :=
  match s with
  | [] => []
  | c :: t =>
      match skip with
      | S k => scan_from k t
      | O =>
          match match_here s with
          | Some (capture, _) => Tok capture :: scan_from (S (length capture)) t
          | None => Lit c :: scan_from 0 t
          end
      end
  end.

Definition scan (s : jsstring) : list piece := scan_from 0 s.

Definition captures (s : jsstring) : list jsstring :=
  omap (fun p => match p with Tok capture => Some capture | Lit _ => None end)
       (scan s).

(** [s.match(/\{([^}]+)\}/g)]: the matched substrings, [null] when there is
    none. *)
Definition str_match (s : jsstring) : option (list jsstring) :=
  match List.map token_of (captures s) with
  | [] => None
  | matches => Some matches
  end.

(** [s.replace(/\{([^}]+)\}/g, fn)]: [fn] receives the match and the capture
    group. *)
Definition str_replace (fn : jsstring -> jsstring -> jsstring)
    (s : jsstring) : jsstring :=
  List.concat
    (List.map (fun p => match p with
                        | Lit c => [c]
                        | Tok capture => fn (token_of capture) capture
                        end)
              (scan s)).

(** [token.replace(/[{}]/g, "")] *)
Definition remove_braces (s : jsstring) : jsstring :=
  List.filter (fun c => negb ((c =? lbrace) || (c =? rbrace))%N) s.

(** A [Set] of strings keeps its elements in insertion order. *)
Definition set_add (x : jsstring) (set : list jsstring) : list jsstring :=
  if bool_decide (x ∈ set) then set else set ++ [x].

(** [out] contains [t] as a substring. *)
Definition contains (out t : jsstring) : Prop :=
  ∃ pre post, out = pre ++ t ++ post.

End Js.

Import Js.

(** ** Placeholder extractor and message merger *)

Definition parsePlaceholders (template : jsstring) : list jsstring :=
  match str_match template with
  | None => []
  | Some matches =>
      foldl (fun placeholders token =>
               let clean := trim (remove_braces token) in
               if truthy clean then set_add clean placeholders
               else placeholders)
            [] matches
  end.

(** The names of the members of [Object.prototype], which every plain
    object inherits. *)
Definition object_prototype_names : list jsstring :=
  [js "constructor"; js "hasOwnProperty"; js "isPrototypeOf";
   js "propertyIsEnumerable"; js "toLocaleString"; js "toString";
   js "valueOf"; js "__proto__"; js "__defineGetter__"; js "__defineSetter__";
   js "__lookupGetter__"; js "__lookupSetter__"].

(** [values[key]] on a plain object, as the merger uses it: the own entry,
    or else the inherited member, which is not nullish and ends up in the
    message as its text [inherited_text key]; [None] is [undefined]. *)
Definition get_property (inherited_text : jsstring → jsstring)
    (values : gmap jsstring jsstring) (key : jsstring) : option jsstring :=
  match values !! key with
  | Some v => Some v
  | None =>
      if bool_decide (key ∈ object_prototype_names)
      then Some (inherited_text key) else None
  end.

(** The callback of the merger: [values[key] ?? `{${key}}`]. *)
Definition merge_token (inherited_text : jsstring → jsstring)
    (values : gmap jsstring jsstring) (rawKey : jsstring) : jsstring :=
  let key := trim rawKey in
  match get_property inherited_text values key with
  | Some v => v
  | None => token_of key
  end.

Definition mergeTemplateContent (inherited_text : jsstring → jsstring)
    (template : jsstring) (values : gmap jsstring jsstring) : jsstring :=
  str_replace (fun _ rawKey => merge_token inherited_text values rawKey)
    template.

(** The names a body declares, in order of appearance: the text between the
    braces of each token, trimmed, the empty ones left out. *)
Definition trimmed_names (template : jsstring) : list jsstring :=
  List.filter truthy (List.map trim (captures template)).

(** No token of the body has a [{] between its braces. *)
Definition nested_free (template : jsstring) : Prop :=
  Forall (fun capture => lbrace ∉ capture) (captures template).

(** [s.startsWith(t)] and [s.includes(t)] *)
Fixpoint starts_with (s t : jsstring) {struct t} : bool :=
  match t, s with
  | [], _ => true
  | _ :: _, [] => false
  | y :: t', x :: s' => (x =? y)%N && starts_with s' t'
  end.

Fixpoint includes (s t : jsstring) : bool :=
  starts_with s t ||
  match s with
  | [] => false
  | _ :: s' => includes s' t
  end.

(** *** Looking for a match of the expression in an output

    A reader that follows the expression itself: [Started] after a [{],
    [Running] once the run after it is not empty; [match_step] is [None]
    when the [}] that completes a match is read. *)
Inductive matcher := Idle | Started | Running.

Definition match_step (q : matcher) (c : N) : option matcher :=
  if (c =? rbrace)%N then
    match q with Running => None | _ => Some Idle end
  else if (c =? lbrace)%N then
    match q with Idle => Some Started | _ => Some Running end
  else
    match q with Idle => Some Idle | _ => Some Running end.

Fixpoint match_run (q : matcher) (out : jsstring) : option matcher :=
  match out with
  | [] => Some q
  | c :: t =>
      match match_step q c with
      | Some q' => match_run q' t
      | None => None
      end
  end.

(** The reader in state [q] cannot complete a match before the rest [s] of
    the body is scanned. *)
Definition match_safe (q : matcher) (s : jsstring) : Prop :=
  q = Idle ∨ (q = Started ∧ ∃ t, s = rbrace :: t) ∨ rbrace ∉ s.

(** ** Data model *)

Inductive Platform :=
  | Twitter | LinkedIn | Instagram | Facebook | TikTok | YouTube.

Definition platform_name (p : Platform) : jsstring :=
  match p with
  | Twitter => js "Twitter"
  | LinkedIn => js "LinkedIn"
  | Instagram => js "Instagram"
  | Facebook => js "Facebook"
  | TikTok => js "TikTok"
  | YouTube => js "YouTube"
  end.

(** [platforms.join(", ")] *)
Definition join_platforms (ps : list Platform) : jsstring :=
  join (js ", ") (List.map platform_name ps).

Record Template := mkTemplate {
  t_id : jsstring;
  t_name : jsstring;
  t_description : jsstring;
  t_platforms : list Platform;
  t_content : jsstring;
  t_tags : list jsstring;
  t_createdAt : jsstring;
  t_updatedAt : jsstring;
  t_usageCount : Z;
}.

Inductive PostStatus := pending | approved | scheduled | published.

Record ScheduledPost := mkPost {
  p_id : jsstring;
  p_templateId : jsstring;
  p_templateName : jsstring;
  p_values : gmap jsstring jsstring;
  p_finalMessage : jsstring;
  p_platforms : list Platform;
  p_scheduledAt : option jsstring;
  p_status : PostStatus;
  p_createdAt : jsstring;
  p_approvedAt : option jsstring;
  p_publishedAt : option jsstring;
  p_notes : option jsstring;
  p_mediaUrl : option jsstring;
  p_reviewers : list jsstring;
}.

Inductive Category := cat_template | cat_post.

Record ActivityEntry := mkEntry {
  a_id : jsstring;
  a_timestamp : jsstring;
  a_summary : jsstring;
  a_detail : option jsstring;
  a_category : Category;
}.

Record AppState := mkState {
  templates : list Template;
  posts : list ScheduledPost;
  activity : list ActivityEntry;
}.

(** The double nearest to an integer, ties to the even significand: a
    double holds every integer up to 2^53 and, beyond, the multiples of
    [2^e] that have 53 significant bits. *)
Definition double_round (z : Z) : Z :=
  let a := Z.abs z in
  if a <=? 2 ^ 53 then z
  else
    let e := Z.log2 a - 52 in
    let q := a / 2 ^ e in
    let r := a mod 2 ^ e in
    let half := 2 ^ (e - 1) in
    let q' := if r <? half then q
              else if half <? r then q + 1
              else if Z.even q then q else q + 1 in
    Z.sgn z * (q' * 2 ^ e).

(** [n + 1] on numbers. *)
Definition number_succ (n : Z) : Z := double_round (n + 1).

(** [{ ...template, usageCount: template.usageCount + 1 }] *)
Definition bump_usage (t : Template) : Template :=
  mkTemplate (t_id t) (t_name t) (t_description t) (t_platforms t)
    (t_content t) (t_tags t) (t_createdAt t) (t_updatedAt t)
    (number_succ (t_usageCount t)).

(** [{ ...post, status }] *)
Definition with_status (p : ScheduledPost) (st : PostStatus) : ScheduledPost :=
  mkPost (p_id p) (p_templateId p) (p_templateName p) (p_values p)
    (p_finalMessage p) (p_platforms p) (p_scheduledAt p) st (p_createdAt p)
    (p_approvedAt p) (p_publishedAt p) (p_notes p) (p_mediaUrl p)
    (p_reviewers p).

(** [{ ...post, status, approvedAt: timestamp }] *)
Definition with_approved (p : ScheduledPost) (st : PostStatus)
    (timestamp : jsstring) : ScheduledPost :=
  mkPost (p_id p) (p_templateId p) (p_templateName p) (p_values p)
    (p_finalMessage p) (p_platforms p) (p_scheduledAt p) st (p_createdAt p)
    (Some timestamp) (p_publishedAt p) (p_notes p) (p_mediaUrl p)
    (p_reviewers p).

(** [{ ...post, status, publishedAt: timestamp }] *)
Definition with_published (p : ScheduledPost) (st : PostStatus)
    (timestamp : jsstring) : ScheduledPost :=
  mkPost (p_id p) (p_templateId p) (p_templateName p) (p_values p)
    (p_finalMessage p) (p_platforms p) (p_scheduledAt p) st (p_createdAt p)
    (p_approvedAt p) (Some timestamp) (p_notes p) (p_mediaUrl p)
    (p_reviewers p).

(** ** Activity journal *)

(** [[entry, ...entries].slice(0, 40)] *)
Definition appendActivity (entries : list ActivityEntry)
    (entry : ActivityEntry) : list ActivityEntry :=
  take 40 (entry :: entries).

(** ** Workspace operations (the callbacks of [HomePage]) *)

Definition same_id (a b : jsstring) : bool := bool_decide (a = b).

Definition find_template (id : jsstring) (ts : list Template)
    : option Template :=
  List.find (fun tpl => same_id (t_id tpl) id) ts.

Definition find_post (id : jsstring) (ps : list ScheduledPost)
    : option ScheduledPost :=
  List.find (fun item => same_id (p_id item) id) ps.

Definition upsertTemplate (prev : AppState) (template : Template)
    (newId : jsstring) : AppState :=
  let exists_ :=
    List.existsb (fun item => same_id (t_id item) (t_id template))
                 (templates prev) in
  let templates' :=
    if exists_ then
      List.map (fun item =>
                  if same_id (t_id item) (t_id template) then template
                  else item)
               (templates prev)
    else template :: templates prev in
  let activityEntry :=
    if exists_ then
      mkEntry newId (t_updatedAt template)
        (js "Template updated: " ++ t_name template)
        (Some (js "Structure refreshed")) cat_template
    else
      mkEntry newId (t_createdAt template)
        (js "New template: " ++ t_name template)
        (Some (js "Platforms: " ++ join_platforms (t_platforms template)))
        cat_template in
  mkState templates' (posts prev) (appendActivity (activity prev) activityEntry).

Definition removeTemplate (prev : AppState) (id newId now : jsstring)
    : AppState :=
  mkState
    (List.filter (fun template => negb (same_id (t_id template) id))
                 (templates prev))
    (posts prev)
    (appendActivity (activity prev)
       (mkEntry newId now (js "Template archived")
          (Some (js "Removed from library")) cat_template)).

Definition addPost (prev : AppState) (post : ScheduledPost)
    (newId now : jsstring) : AppState :=
  mkState
    (List.map (fun template =>
                 if same_id (t_id template) (p_templateId post)
                 then bump_usage template else template)
              (templates prev))
    (post :: posts prev)
    (appendActivity (activity prev)
       (mkEntry newId now (js "Staged: " ++ p_templateName post)
          (Some (js "Awaiting approval for " ++ join_platforms (p_platforms post)))
          cat_post)).

Definition setPostStatus (prev : AppState) (id : jsstring)
    (status : PostStatus) (timestamp : jsstring) : AppState :=
  mkState
    (templates prev)
    (List.map (fun post =>
                 if negb (same_id (p_id post) id) then post
                 else match status with
                      | approved => with_approved post status timestamp
                      | published => with_published post status timestamp
                      | scheduled => with_status post status
                      | pending => with_status post status
                      end)
              (posts prev))
    (activity prev).

Definition deletePost (prev : AppState) (id newId now : jsstring) : AppState :=
  mkState
    (templates prev)
    (List.filter (fun post => negb (same_id (p_id post) id)) (posts prev))
    (appendActivity (activity prev)
       (mkEntry newId now (js "Post removed")
          (Some (js "Cleared from queue")) cat_post)).

(** The callback [(item) => (item.id === id ? g(item) : item)] the handlers
    map over the posts. *)
Definition update_post (id : jsstring) (g : ScheduledPost → ScheduledPost)
    (item : ScheduledPost) : ScheduledPost :=
  if same_id (p_id item) id then g item else item.

(** The three handlers read the post from the rendered state and then update
    the current one; a click is handled on the state it was rendered from, so
    both are [state]. *)
Definition handleApprove (state : AppState) (id newId timestamp : jsstring)
    : AppState :=
  match find_post id (posts state) with
  | None => setPostStatus state id approved timestamp
  | Some post =>
      mkState
        (templates state)
        (List.map (update_post id
                     (fun item => with_approved item approved timestamp))
                  (posts state))
        (appendActivity (activity state)
           (mkEntry newId timestamp (js "Approved: " ++ p_templateName post)
              (Some (js "Ready for " ++ join_platforms (p_platforms post)))
              cat_post))
  end.

Definition handlePublish (state : AppState) (id newId timestamp : jsstring)
    : AppState :=
  match find_post id (posts state) with
  | None => setPostStatus state id published timestamp
  | Some post =>
      mkState
        (templates state)
        (List.map (update_post id
                     (fun item => with_published item published timestamp))
                  (posts state))
        (appendActivity (activity state)
           (mkEntry newId timestamp (js "Published: " ++ p_templateName post)
              (Some (js "Shipped to " ++ join_platforms (p_platforms post)))
              cat_post))
  end.

Section Schedule.

(** [formatDateTime] renders a date in the locale of the browser; it is left
    open here. *)
Variable formatDateTime : option jsstring -> jsstring.

Definition handleSchedule (state : AppState) (id newId timestamp : jsstring)
    : AppState :=
  match find_post id (posts state) with
  | None => setPostStatus state id scheduled timestamp
  | Some post =>
      mkState
        (templates state)
        (List.map (update_post id (fun item => with_status item scheduled))
                  (posts state))
        (appendActivity (activity state)
           (mkEntry newId timestamp (js "Scheduled: " ++ p_templateName post)
              (if truthy_opt (p_scheduledAt post)
               then Some (js "Publishes " ++ formatDateTime (p_scheduledAt post))
               else None)
              cat_post))
  end.

End Schedule.

(** ** The forms and the approval queue *)

Record TemplateFormState := mkForm {
  f_id : option jsstring;
  f_name : jsstring;
  f_description : jsstring;
  f_content : jsstring;
  f_platforms : list Platform;
  f_tags : jsstring;
}.

(** The payload [handleSubmit] of the template form hands to [onSave];
    [None] when it returns early. *)
Definition handleSubmit (templates : list Template) (form : TemplateFormState)
    (newId timestamp : jsstring) : option Template :=
  if negb (truthy (trim (f_name form))) || negb (truthy (trim (f_content form)))
  then None
  else
    let found := f_id form ≫= (fun i => find_template i templates) in
    Some (mkTemplate
            (default newId (f_id form))
            (trim (f_name form))
            (let d := trim (f_description form) in
             if truthy d then d else js "Untitled template")
            (f_platforms form)
            (trim (f_content form))
            (split_trim_filter (f_tags form))
            (if truthy_opt (f_id form)
             then default timestamp (t_createdAt <$> found)
             else timestamp)
            timestamp
            (if truthy_opt (f_id form)
             then default 0 (t_usageCount <$> found)
             else 0)).

(** Saving a template: the form builds the payload, [upsertTemplate] stores
    it. *)
Definition saveTemplate (state : AppState) (form : TemplateFormState)
    (newId entryId timestamp : jsstring) : AppState :=
  match handleSubmit (templates state) form newId timestamp with
  | None => state
  | Some payload => upsertTemplate state payload entryId
  end.

Record ComposerState := mkComposer {
  c_templateId : jsstring;
  c_values : gmap jsstring jsstring;
  c_scheduledAt : option jsstring;
  c_platforms : list Platform;
  c_notes : jsstring;
  c_mediaUrl : jsstring;
  c_reviewers : jsstring;
}.

(** [text.trim() || undefined] *)
Definition trim_or_undefined (text : jsstring) : option jsstring :=
  let t := trim text in if truthy t then Some t else None.

(** The payload [submit] of the composer hands to [onCompose]; [None] when
    there is no active template. *)
Definition submit (inherited_text : jsstring → jsstring)
    (templates : list Template) (state : ComposerState)
    (newId timestamp : jsstring) : option ScheduledPost :=
  match find_template (c_templateId state) templates with
  | None => None
  | Some activeTemplate =>
      Some (mkPost newId (t_id activeTemplate) (t_name activeTemplate)
              (c_values state)
              (mergeTemplateContent inherited_text (t_content activeTemplate)
                 (c_values state))
              (c_platforms state) (c_scheduledAt state) pending timestamp
              None None
              (trim_or_undefined (c_notes state))
              (trim_or_undefined (c_mediaUrl state))
              (split_trim_filter (c_reviewers state)))
  end.

(** Composing: the composer builds the payload at [timestamp], [addPost]
    stores it and reads the clock again, [loggedAt], for the entry. *)
Definition composePost (inherited_text : jsstring → jsstring)
    (state : AppState) (c : ComposerState)
    (newId entryId timestamp loggedAt : jsstring) : AppState :=
  match submit inherited_text (templates state) c newId timestamp with
  | None => state
  | Some payload => addPost state payload entryId loggedAt
  end.

Definition status_eqb (a b : PostStatus) : bool :=
  match a, b with
  | pending, pending | approved, approved
  | scheduled, scheduled | published, published => true
  | _, _ => false
  end.

(** The buttons [ApprovalQueue] renders for a post.  Remove is always there. *)
Definition offersApprove (post : ScheduledPost) : bool :=
  status_eqb (p_status post) pending.

Definition offersSchedule (post : ScheduledPost) : bool :=
  status_eqb (p_status post) approved && truthy_opt (p_scheduledAt post).

Definition offersPublish (post : ScheduledPost) : bool :=
  status_eqb (p_status post) approved || status_eqb (p_status post) scheduled.

(** ** Runs of the workspace *)

(** One call of a callback of [HomePage], with the identifier and the time it
    draws. *)
Inductive op :=
  | OpUpsert (template : Template) (newId : jsstring)
  | OpRemoveTemplate (id newId now : jsstring)
  | OpAddPost (post : ScheduledPost) (newId now : jsstring)
  | OpApprove (id newId now : jsstring)
  | OpSchedule (id newId now : jsstring)
  | OpPublish (id newId now : jsstring)
  | OpDeletePost (id newId now : jsstring).

(** The order of the workflow. *)
Definition rank (st : PostStatus) : nat :=
  match st with
  | pending => 0
  | approved => 1
  | scheduled => 2
  | published => 3
  end.

Section Runs.

Variable formatDateTime : option jsstring -> jsstring.

Definition step (s : AppState) (o : op) : AppState :=
  match o with
  | OpUpsert template newId => upsertTemplate s template newId
  | OpRemoveTemplate id newId now => removeTemplate s id newId now
  | OpAddPost post newId now => addPost s post newId now
  | OpApprove id newId now => handleApprove s id newId now
  | OpSchedule id newId now => handleSchedule formatDateTime s id newId now
  | OpPublish id newId now => handlePublish s id newId now
  | OpDeletePost id newId now => deletePost s id newId now
  end.

Definition run (s : AppState) (ops : list op) : AppState := foldl step s ops.

(** What the page lets the user do in state [s]: a status button is pressed
    on a post of the queue that shows it, and a composed post is new, with a
    fresh identifier and status [pending] (see [submit]). *)
Definition offered (s : AppState) (o : op) : Prop :=
  match o with
  | OpApprove id _ _ =>
      ∃ post, post ∈ posts s ∧ p_id post = id ∧ offersApprove post = true
  | OpSchedule id _ _ =>
      ∃ post, post ∈ posts s ∧ p_id post = id ∧ offersSchedule post = true
  | OpPublish id _ _ =>
      ∃ post, post ∈ posts s ∧ p_id post = id ∧ offersPublish post = true
  | OpAddPost post _ _ =>
      p_status post = pending ∧ p_id post ∉ List.map p_id (posts s)
  | OpUpsert _ _ | OpRemoveTemplate _ _ _ | OpDeletePost _ _ _ => True
  end.

(** Every operation of the run is offered in the state it is applied to. *)
Fixpoint offered_run (s : AppState) (ops : list op) : Prop :=
  match ops with
  | [] => True
  | o :: rest => offered s o ∧ offered_run (step s o) rest
  end.

End Runs.

(** A post that is [scheduled] has a schedule. *)
Definition schedule_ok (post : ScheduledPost) : Prop :=
  p_status post = scheduled → truthy_opt (p_scheduledAt post) = true.

(** The identifiers of the posts are pairwise distinct, as [createId] makes
    them, and every scheduled post has a schedule. *)
Definition queue_ok (s : AppState) : Prop :=
  NoDup (List.map p_id (posts s)) ∧ Forall schedule_ok (posts s).

(** The usage counts of the templates that carry the identifier [id], in
    the order of the list. *)
Definition usages_of (id : jsstring) (s : AppState) : list Z :=
  List.map t_usageCount
    (List.filter (fun tpl => same_id (t_id tpl) id) (templates s)).

(** The usage count of the first template that carries [id]. *)
Definition usage_of (id : jsstring) (s : AppState) : option Z :=
  t_usageCount <$> find_template id (templates s).

(** The operation composes a post from the template [t]. *)
Definition composes (t : jsstring) (o : op) : bool :=
  match o with
  | OpAddPost post _ _ => same_id (p_templateId post) t
  | _ => false
  end.

(** The operation does not save or delete the template [t] itself. *)
Definition foreign_to (t : jsstring) (o : op) : Prop :=
  match o with
  | OpUpsert template _ => t_id template ≠ t
  | OpRemoveTemplate id _ _ => id ≠ t
  | _ => True
  end.

(** The operation does not delete the post [id]. *)
Definition keeps_post (id : jsstring) (o : op) : Prop :=
  match o with
  | OpDeletePost id' _ _ => id' ≠ id
  | _ => True
  end.

(** ** Sample data *)

Definition sample_entry (n : nat) : ActivityEntry :=
  mkEntry [N.of_nat n] (js "2024-01-01T00:00:00.000Z") (js "Post removed")
    None cat_post.

Definition fifty_entries : list ActivityEntry :=
  List.map sample_entry (seq 0 50).


Definition sample_post (id : jsstring) (st : PostStatus)
    (sched : option jsstring) : ScheduledPost :=
  mkPost id (js "t1") (js "Product Launch Pulse") ∅ (js "Hello") [Twitter]
    sched st (js "2024-01-01T00:00:00.000Z") None None None None [].

Definition sample_time : jsstring := js "2024-01-02T00:00:00.000Z".

Definition full_journal_state : AppState :=
  mkState [] [] (List.map sample_entry (seq 0 40)).

(** The fields of a post that record what was composed. *)
Definition snapshot (p : ScheduledPost) :=
  (p_id p, p_templateId p, p_templateName p, p_values p, p_finalMessage p,
   p_createdAt p).


Definition sample_template (id : jsstring) (uses : Z) : Template :=
  mkTemplate id (js "Product Launch Pulse") (js "Announce a new feature")
    [Twitter; LinkedIn] (js "Meet {feature_name}: {feature_summary}.")
    [js "#LaunchDay"] (js "2024-01-01T00:00:00.000Z")
    (js "2024-01-01T00:00:00.000Z") uses.

Definition sample_form (id : option jsstring) : TemplateFormState :=
  mkForm id (js " Launch ") (js "") (js "Now: {feature_name}") [Facebook]
    (js "#a, #b").

Definition sample_composer (t : jsstring) : ComposerState :=
  mkComposer t {[ js "feature_name" := js "Flow" ]} None [Twitter] (js "")
    (js "") (js "Maya, Alex").

(** The text of the members of [Object.prototype] in one engine. *)
Definition sample_inherited_text (key : jsstring) : jsstring :=
  if bool_decide (key = js "__proto__") then js "[object Object]"
  else if bool_decide (key = js "constructor")
       then js "function Object() { [native code] }"
       else js "function " ++ key ++ js "() { [native code] }".

Definition two_to_53 : Z := 9007199254740992.

(** ** More of the page: forms, statistics and selections *)

(** [startEditing] of the template form: the form filled from a template. *)
Definition startEditing (template : Template) : TemplateFormState :=
  mkForm (Some (t_id template)) (t_name template) (t_description template)
    (t_content template) (t_platforms template)
    (join (js ", ") (t_tags template)).

Definition platform_eqb (a b : Platform) : bool :=
  match a, b with
  | Twitter, Twitter | LinkedIn, LinkedIn | Instagram, Instagram
  | Facebook, Facebook | TikTok, TikTok | YouTube, YouTube => true
  | _, _ => false
  end.

(** The click on a platform button, in the template form and in the
    composer: [isActive ? platforms.filter((item) => item !== platform)
    : [...platforms, platform]] with [isActive = platforms.includes(platform)]. *)
Definition togglePlatform (platforms : list Platform) (platform : Platform)
    : list Platform :=
  if List.existsb (platform_eqb platform) platforms then
    List.filter (fun item => negb (platform_eqb item platform)) platforms
  else platforms ++ [platform].

(** The change of the template select of the composer. *)
Definition selectTemplate (templates : list Template) (prev : ComposerState)
    (nextId : jsstring) : ComposerState :=
  mkComposer nextId ∅ (c_scheduledAt prev)
    (default [] (t_platforms <$> find_template nextId templates))
    (c_notes prev) (c_mediaUrl prev) (c_reviewers prev).

(** The change of the field of a placeholder:
    [{ ...prev.values, [placeholder]: text }]. *)
Definition setField (prev : ComposerState) (placeholder text : jsstring)
    : ComposerState :=
  mkComposer (c_templateId prev) (<[placeholder := text]> (c_values prev))
    (c_scheduledAt prev) (c_platforms prev) (c_notes prev) (c_mediaUrl prev)
    (c_reviewers prev).

(** The update the effect of the composer schedules when the templates
    change: with no template left the composer is emptied, and a composer
    whose template is gone moves to the first template and drops its
    values. *)
Definition reconcileComposer (templates : list Template)
    (state : ComposerState) : ComposerState :=
  match templates with
  | [] =>
      mkComposer [] (c_values state) (c_scheduledAt state) []
        (c_notes state) (c_mediaUrl state) (c_reviewers state)
  | first :: _ =>
      if List.existsb (fun template => same_id (t_id template) (c_templateId state))
                      templates
      then state
      else mkComposer (t_id first) ∅ (c_scheduledAt state) (t_platforms first)
             (c_notes state) (c_mediaUrl state) (c_reviewers state)
  end.

(** The update the effect of [HomePage] schedules for the selected
    template. *)
Definition reconcileSelection (templates : list Template)
    (selectedTemplateId : option jsstring) : option jsstring :=
  match templates with
  | [] => None
  | first :: _ =>
      if negb (truthy_opt selectedTemplateId)
         || negb (List.existsb
                    (fun tpl => bool_decide (Some (t_id tpl) = selectedTemplateId))
                    templates)
      then Some (t_id first)
      else selectedTemplateId
  end.

(** The figures of [StatsBar]. *)
Definition count_status (st : PostStatus) (ps : list ScheduledPost) : nat :=
  length (List.filter (fun post => status_eqb (p_status post) st) ps).

Definition usageLeader (ts : list Template) : option Template :=
  foldl (fun acc template =>
           match acc with
           | None => Some template
           | Some leader =>
               if t_usageCount leader <? t_usageCount template
               then Some template else acc
           end)
        None ts.

Record Stats := mkStats {
  templateCount : nat;
  pendingCount : nat;
  approvedCount : nat;
  publishedCount : nat;
  leader : option Template;
}.

Definition StatsBar (ts : list Template) (ps : list ScheduledPost) : Stats :=
  mkStats (length ts) (count_status pending ps) (count_status approved ps)
    (count_status published ps) (usageLeader ts).

(** The composer after the fields [fields] have been typed in, in order. *)
Definition typeFields (c : ComposerState)
    (fields : list (jsstring * jsstring)) : ComposerState :=
  foldl (fun c field => setField c field.1 field.2) c fields.

(** *** Notions for the properties *)

(** A string as [trim] leaves it, and not empty. *)
Definition clean (s : jsstring) : Prop := s ≠ [] ∧ trim s = s.

(** A tag as the template form stores it. *)
Definition clean_tag (s : jsstring) : Prop := clean s ∧ comma ∉ s.

(** A template as the template form stores it. *)
Definition stored_form (t : Template) : Prop :=
  clean (t_name t) ∧ clean (t_description t) ∧ clean (t_content t) ∧
  Forall clean_tag (t_tags t).

(** [{ ...template, updatedAt }] *)
Definition with_updatedAt (t : Template) (now : jsstring) : Template :=
  mkTemplate (t_id t) (t_name t) (t_description t) (t_platforms t)
    (t_content t) (t_tags t) (t_createdAt t) now (t_usageCount t).

(** The category and the entry identifier of an operation. *)
Definition op_category (o : op) : Category :=
  match o with
  | OpUpsert _ _ | OpRemoveTemplate _ _ _ => cat_template
  | _ => cat_post
  end.

Definition op_entry_id (o : op) : jsstring :=
  match o with
  | OpUpsert _ newId => newId
  | OpRemoveTemplate _ newId _ | OpAddPost _ newId _ | OpApprove _ newId _
  | OpSchedule _ newId _ | OpPublish _ newId _ | OpDeletePost _ newId _ => newId
  end.

(** The post a status button acts on, if the operation is one. *)
Definition op_transition (o : op) : option jsstring :=
  match o with
  | OpApprove id _ _ | OpSchedule id _ _ | OpPublish id _ _ => Some id
  | _ => None
  end.

(** The operation neither deletes the post [id] nor adds a post under it. *)
Definition leaves_post (id : jsstring) (o : op) : Prop :=
  match o with
  | OpDeletePost id' _ _ => id' ≠ id
  | OpAddPost post _ _ => p_id post ≠ id
  | _ => True
  end.

(** A post past [pending] has its approval time, a published post its
    publication time. *)
Definition stamps_ok (post : ScheduledPost) : Prop :=
  (p_status post ≠ pending → is_Some (p_approvedAt post)) ∧
  (p_status post = published → is_Some (p_publishedAt post)).


(** The operation finds its post: a status button does nothing but a silent
    [setPostStatus] when no post carries the identifier. *)
Definition hits (s : AppState) (o : op) : Prop :=
  match op_transition o with
  | Some id => is_Some (find_post id (posts s))
  | None => True
  end.

(** Everything a post holds but its status and the two times the workflow
    stamps. *)
Definition content (p : ScheduledPost) :=
  (snapshot p, p_platforms p, p_scheduledAt p, p_notes p, p_mediaUrl p,
   p_reviewers p).

(** The number of presses of a status button on the post [id] in a run. *)
Definition transitions_on (id : jsstring) (ops : list op) : nat :=
  length (List.filter (fun o => bool_decide (op_transition o = Some id)) ops).
(** * Properties *)

(** ** Activity journal *)

Lemma take_app_take {A} (n : nat) (l k : list A) :
  take n (l ++ take n k) = take n (l ++ k).
Proof.
  rewrite !take_app, take_take. f_equal. f_equal. lia.
Qed.

Lemma appendActivity_foldl (es j : list ActivityEntry) :
  es ≠ [] → foldl appendActivity j es = take 40 (rev es ++ j).
Proof.
  revert j. induction es as [|e es IH]; intros j Hne; [done|].
  cbn [foldl]. destruct es as [|e' es].
  - reflexivity.
  - rewrite IH by done. unfold appendActivity.
    rewrite take_app_take. cbn [rev]. by rewrite <- !app_assoc.
Qed.

Lemma appendActivity_length (j : list ActivityEntry) (e : ActivityEntry) :
  length (appendActivity j e) = (S (length j) `min` 40)%nat.
Proof. unfold appendActivity. rewrite length_take. cbn [length]. lia. Qed.

(** C8. [appendActivity] puts the new entry in front and keeps the first 40
    entries; whatever the journal was, appending 50 entries one at a time
    leaves exactly the last 40 of them, the newest first. *)
Theorem journal_bound (j es : list ActivityEntry) (e : ActivityEntry) :
  appendActivity j e = take 40 (e :: j) ∧
  (length es = 50%nat →
   foldl appendActivity j es = rev (drop 10 es) ∧
   length (foldl appendActivity j es) = 40%nat).
Proof.
  split; [reflexivity|]. intros Hlen.
  assert (Hfold : foldl appendActivity j es = rev (drop 10 es)).
  { rewrite appendActivity_foldl by (intros ->; discriminate).
    rewrite take_app_le by (rewrite length_rev; lia).
    rewrite <- (take_drop 10 es) at 1.
    rewrite rev_app_distr, take_app_length'; [done|].
    rewrite length_rev, length_drop. lia. }
  split; [exact Hfold|].
  rewrite Hfold, length_rev, length_drop. lia.
Qed.

Lemma journal_bound_witness :
  length fifty_entries = 50%nat ∧
  foldl appendActivity [sample_entry 99] fifty_entries
    = rev (drop 10 fifty_entries).
Proof.
  split; [reflexivity|].
  apply (journal_bound [sample_entry 99] fifty_entries (sample_entry 0)).
  reflexivity.
Defined.

(** ** Posts: lookups through the updates *)

Lemma same_id_true (a b : jsstring) : same_id a b = true ↔ a = b.
Proof. unfold same_id. by rewrite bool_decide_eq_true. Qed.

Lemma same_id_false (a b : jsstring) : same_id a b = false ↔ a ≠ b.
Proof. unfold same_id. by rewrite bool_decide_eq_false. Qed.

Lemma find_post_id (id : jsstring) (ps : list ScheduledPost) (p : ScheduledPost) :
  find_post id ps = Some p → p_id p = id ∧ p ∈ ps.
Proof.
  unfold find_post. intros H. apply List.find_some in H as [Hin Hid].
  split; [by apply same_id_true | by apply list_elem_of_In].
Qed.

Lemma find_post_None (id : jsstring) (ps : list ScheduledPost) :
  find_post id ps = None ↔ id ∉ List.map p_id ps.
Proof.
  unfold find_post. induction ps as [|p ps IH]; cbn.
  - split; [intros _; apply not_elem_of_nil | done].
  - rewrite not_elem_of_cons. destruct (same_id (p_id p) id) eqn:E.
    + apply same_id_true in E. split; [done | intros [? _]; congruence].
    + apply same_id_false in E. rewrite IH. split; [|tauto].
      intros ?; split; [congruence | done].
Qed.

Lemma find_post_map (f : ScheduledPost → ScheduledPost) (id : jsstring)
    (ps : list ScheduledPost) :
  (∀ p, p_id (f p) = p_id p) →
  find_post id (List.map f ps) = f <$> find_post id ps.
Proof.
  intros Hf. unfold find_post. induction ps as [|p ps IH]; cbn; [done|].
  rewrite Hf. by destruct (same_id (p_id p) id).
Qed.

Lemma map_update_absent (g : ScheduledPost → ScheduledPost) (id : jsstring)
    (ps : list ScheduledPost) :
  find_post id ps = None →
  List.map (update_post id g) ps = ps.
Proof.
  unfold find_post, update_post. induction ps as [|p ps IH]; cbn; [done|].
  destruct (same_id (p_id p) id); [done|]. intros H. by rewrite IH.
Qed.

Lemma setPostStatus_absent (s : AppState) (id : jsstring) (st : PostStatus)
    (now : jsstring) :
  find_post id (posts s) = None → setPostStatus s id st now = s.
Proof.
  intros H. unfold setPostStatus. destruct s as [ts ps acts]; cbn in *.
  f_equal. rewrite <- (map_update_absent
    (fun post => match st with
                 | approved => with_approved post st now
                 | published => with_published post st now
                 | _ => with_status post st
                 end) id ps H) at 2.
  apply List.map_ext. intros p. unfold update_post.
  destruct (same_id (p_id p) id); cbn; [by destruct st | done].
Qed.

Lemma find_post_updated (g : ScheduledPost → ScheduledPost) (id : jsstring)
    (ps : list ScheduledPost) (post : ScheduledPost) :
  (∀ p, p_id (g p) = p_id p) →
  find_post id ps = Some post →
  find_post id (List.map (update_post id g) ps) = Some (g post).
Proof.
  intros Hg H. rewrite find_post_map, H.
  - cbn. unfold update_post. apply find_post_id in H as [<- _].
    by rewrite (proj2 (same_id_true _ _) eq_refl).
  - intros p. unfold update_post. by destruct (same_id (p_id p) id).
Qed.

Lemma status_eqb_eq (a b : PostStatus) : status_eqb a b = true ↔ a = b.
Proof. destruct a, b; cbn; split; congruence. Qed.

(** ** Status transitions *)

(** C1, as the code has it.  The handlers do not look at the status of the
    post.  A request for an identifier that no post carries changes nothing;
    a request for a post of the workspace sets the target status and appends
    one entry whatever the status was.  The preconditions live in the
    approval queue, which shows Approve for a pending post, Mark as scheduled
    for an approved post with a schedule, and Publish for an approved or
    scheduled post. *)
Theorem transitions_unguarded (formatDateTime : option jsstring → jsstring)
    (s : AppState) (id newId now : jsstring) :
  (find_post id (posts s) = None →
   handleApprove s id newId now = s ∧
   handleSchedule formatDateTime s id newId now = s ∧
   handlePublish s id newId now = s) ∧
  (∀ post, find_post id (posts s) = Some post →
   let s1 := handleApprove s id newId now in
   let s2 := handleSchedule formatDateTime s id newId now in
   let s3 := handlePublish s id newId now in
   (find_post id (posts s1) = Some (with_approved post approved now) ∧
    ∃ entry, activity s1 = appendActivity (activity s) entry) ∧
   (find_post id (posts s2) = Some (with_status post scheduled) ∧
    ∃ entry, activity s2 = appendActivity (activity s) entry) ∧
   (find_post id (posts s3) = Some (with_published post published now) ∧
    ∃ entry, activity s3 = appendActivity (activity s) entry)) ∧
  (∀ post,
   (offersApprove post = true ↔ p_status post = pending) ∧
   (offersSchedule post = true ↔
      p_status post = approved ∧ truthy_opt (p_scheduledAt post) = true) ∧
   (offersPublish post = true ↔
      p_status post = approved ∨ p_status post = scheduled)).
Proof.
  split; [|split].
  - intros H. unfold handleApprove, handleSchedule, handlePublish.
    rewrite H. by rewrite !setPostStatus_absent.
  - intros post H. unfold handleApprove, handleSchedule, handlePublish.
    rewrite H. cbn [posts activity].
    repeat split; try (by eexists).
    + by apply (find_post_updated (fun p => with_approved p approved now)).
    + by apply (find_post_updated (fun p => with_status p scheduled)).
    + by apply (find_post_updated (fun p => with_published p published now)).
  - intros post. unfold offersApprove, offersSchedule, offersPublish.
    rewrite andb_true_iff, orb_true_iff, !status_eqb_eq. tauto.
Qed.

Lemma transitions_unguarded_witness :
  let s := mkState [] [sample_post (js "p1") published None] [] in
  find_post (js "p2") (posts s) = None ∧
  handleApprove s (js "p2") (js "e1") sample_time = s.
Proof.
  split; [reflexivity|].
  apply (transitions_unguarded (fun _ => js "No schedule")
           (mkState [] [sample_post (js "p1") published None] [])
           (js "p2") (js "e1") sample_time).
  reflexivity.
Defined.

(** C1 fails as stated: approving a published post is not a no-op.  The
    queue would not show the button, yet the handler moves the post back to
    [approved] and records an entry. *)
Lemma approve_published_changes_state :
  let post := sample_post (js "p1") published None in
  let s := mkState [] [post] [] in
  let s' := handleApprove s (js "p1") (js "e1") sample_time in
  offersApprove post = false ∧
  s' ≠ s ∧
  p_status <$> find_post (js "p1") (posts s') = Some approved ∧
  length (activity s') = S (length (activity s)).
Proof. cbn. repeat split; [discriminate]. Qed.

(** ** What the operations leave alone *)

Lemma snapshot_update (g : ScheduledPost → ScheduledPost) (id : jsstring)
    (ps : list ScheduledPost) :
  (∀ p, snapshot (g p) = snapshot p) →
  List.map snapshot (List.map (update_post id g) ps) = List.map snapshot ps.
Proof.
  intros Hg. rewrite List.map_map. apply List.map_ext. intros p.
  unfold update_post. by destruct (same_id (p_id p) id).
Qed.

Lemma setPostStatus_snapshot (s : AppState) (id : jsstring) (st : PostStatus)
    (now : jsstring) :
  List.map snapshot (posts (setPostStatus s id st now))
  = List.map snapshot (posts s).
Proof.
  unfold setPostStatus. cbn [posts]. rewrite List.map_map.
  apply List.map_ext. intros p.
  destruct (same_id (p_id p) id); cbn; [by destruct st | done].
Qed.

(** C9. Deleting a template leaves the posts as they are, and no status
    transition touches the identifier, the template reference, the template
    name, the values, the final message or the creation time of any post. *)
Theorem posts_keep_snapshot (formatDateTime : option jsstring → jsstring)
    (s : AppState) (id newId now : jsstring) (st : PostStatus) :
  posts (removeTemplate s id newId now) = posts s ∧
  List.map snapshot (posts (setPostStatus s id st now))
    = List.map snapshot (posts s) ∧
  List.map snapshot (posts (handleApprove s id newId now))
    = List.map snapshot (posts s) ∧
  List.map snapshot (posts (handleSchedule formatDateTime s id newId now))
    = List.map snapshot (posts s) ∧
  List.map snapshot (posts (handlePublish s id newId now))
    = List.map snapshot (posts s).
Proof.
  split; [reflexivity|]. split; [apply setPostStatus_snapshot|].
  unfold handleApprove, handleSchedule, handlePublish.
  destruct (find_post id (posts s)); cbn [posts];
    repeat split; try apply setPostStatus_snapshot;
    by apply snapshot_update.
Qed.

(** ** Deleting a post *)

Lemma filter_absent (id : jsstring) (ps : list ScheduledPost) :
  find_post id ps = None →
  List.filter (fun post => negb (same_id (p_id post) id)) ps = ps.
Proof.
  unfold find_post. induction ps as [|p ps IH]; cbn; [done|].
  destruct (same_id (p_id p) id); cbn; [done|]. intros H. by rewrite IH.
Qed.

(** C10, as the code has it.  [deletePost] hands a "Post removed" entry to
    the journal whether or not a post carries the identifier: the entry
    becomes the newest one, the journal is one entry longer, up to its bound
    of 40, and when no post carries the identifier the posts (and the
    templates) are unchanged. *)
Theorem deletePost_always_logs (s : AppState) (id newId now : jsstring) :
  let entry := mkEntry newId now (js "Post removed")
                 (Some (js "Cleared from queue")) cat_post in
  let s' := deletePost s id newId now in
  activity s' = appendActivity (activity s) entry ∧
  head (activity s') = Some entry ∧
  length (activity s') = (S (length (activity s)) `min` 40)%nat ∧
  templates s' = templates s ∧
  (find_post id (posts s) = None → posts s' = posts s).
Proof.
  cbn. repeat split.
  - rewrite length_take. cbn [length]. lia.
  - apply filter_absent.
Qed.

Lemma deletePost_always_logs_witness :
  find_post (js "ghost") (posts full_journal_state) = None ∧
  posts (deletePost full_journal_state (js "ghost") (js "e1") sample_time)
    = posts full_journal_state.
Proof.
  split; [reflexivity|].
  apply (deletePost_always_logs full_journal_state (js "ghost") (js "e1")
           sample_time).
  reflexivity.
Defined.

(** C10 fails as stated on a full journal: the entry is recorded, the oldest
    one is dropped, and the journal is no longer than before. *)
Lemma deletePost_full_journal_same_length :
  let s' := deletePost full_journal_state (js "ghost") (js "e1") sample_time in
  find_post (js "ghost") (posts full_journal_state) = None ∧
  posts s' = posts full_journal_state ∧
  length (activity s') ≠ S (length (activity full_journal_state)) ∧
  length (activity s') = length (activity full_journal_state).
Proof. cbn. repeat split. discriminate. Qed.

(** ** Template registry *)

Lemma find_template_id (id : jsstring) (ts : list Template) (t : Template) :
  find_template id ts = Some t → t_id t = id ∧ t ∈ ts.
Proof.
  unfold find_template. intros H. apply List.find_some in H as [Hin Hid].
  split; [by apply same_id_true | by apply list_elem_of_In].
Qed.

Lemma find_template_map (f : Template → Template) (id : jsstring)
    (ts : list Template) :
  (∀ t, t_id (f t) = t_id t) →
  find_template id (List.map f ts) = f <$> find_template id ts.
Proof.
  intros Hf. unfold find_template. induction ts as [|t ts IH]; cbn; [done|].
  rewrite Hf. by destruct (same_id (t_id t) id).
Qed.

Lemma find_template_replace_other (id : jsstring) (template : Template)
    (ts : list Template) :
  t_id template ≠ id →
  find_template id
    (List.map (fun item => if same_id (t_id item) (t_id template)
                           then template else item) ts)
  = find_template id ts.
Proof.
  intros Hne. unfold find_template. induction ts as [|t ts IH]; cbn; [done|].
  destruct (same_id (t_id t) (t_id template)) eqn:E.
  - apply same_id_true in E.
    rewrite (proj2 (same_id_false (t_id template) id)) by done.
    rewrite (proj2 (same_id_false (t_id t) id)) by congruence. exact IH.
  - destruct (same_id (t_id t) id); [done | exact IH].
Qed.

Lemma find_template_filter_other (id id' : jsstring) (ts : list Template) :
  id' ≠ id →
  find_template id
    (List.filter (fun template => negb (same_id (t_id template) id')) ts)
  = find_template id ts.
Proof.
  intros Hne. unfold find_template. induction ts as [|t ts IH]; cbn; [done|].
  destruct (same_id (t_id t) id') eqn:E; cbn.
  - apply same_id_true in E.
    rewrite (proj2 (same_id_false (t_id t) id)) by congruence. exact IH.
  - destruct (same_id (t_id t) id); [done | exact IH].
Qed.

Lemma lookup_map {A B} (f : A → B) (l : list A) (k : nat) :
  List.map f l !! k = f <$> (l !! k).
Proof.
  revert k. induction l as [|x l IH]; intros [|k]; cbn; done.
Qed.

Lemma handlers_keep_templates (formatDateTime : option jsstring → jsstring)
    (s : AppState) (id newId now : jsstring) :
  templates (handleApprove s id newId now) = templates s ∧
  templates (handleSchedule formatDateTime s id newId now) = templates s ∧
  templates (handlePublish s id newId now) = templates s.
Proof.
  unfold handleApprove, handleSchedule, handlePublish.
  by destruct (find_post id (posts s)).
Qed.

Lemma double_round_small (z : Z) : Z.abs z ≤ 2 ^ 53 → double_round z = z.
Proof.
  intros H. unfold double_round.
  by destruct (Z.leb_spec (Z.abs z) (2 ^ 53)); [|lia].
Qed.

Lemma number_succ_exact (n : Z) :
  - 2 ^ 53 ≤ n < 2 ^ 53 → number_succ n = n + 1.
Proof. intros H. apply double_round_small. lia. Qed.

Lemma usages_of_addPost (t : jsstring) (s : AppState) (post : ScheduledPost)
    (newId now : jsstring) :
  usages_of t (addPost s post newId now)
  = if same_id (p_templateId post) t
    then List.map number_succ (usages_of t s) else usages_of t s.
Proof.
  unfold usages_of, addPost. cbn [templates].
  induction (templates s) as [|x ts IH]; cbn [List.map List.filter].
  - by destruct (same_id (p_templateId post) t).
  - destruct (same_id (t_id x) (p_templateId post)) eqn:E1.
    + apply same_id_true in E1. cbn [bump_usage t_id]. rewrite E1.
      destruct (same_id (p_templateId post) t) eqn:E2; [|exact IH].
      cbn [List.map t_usageCount]. by rewrite IH.
    + destruct (same_id (t_id x) t) eqn:E3; [|exact IH].
      apply same_id_true in E3. apply same_id_false in E1.
      rewrite (proj2 (same_id_false (p_templateId post) t)) in * by congruence.
      cbn [List.map]. by rewrite IH.
Qed.

Lemma filter_id_replace_other (t : jsstring) (template : Template)
    (ts : list Template) :
  t_id template ≠ t →
  List.filter (fun tpl => same_id (t_id tpl) t)
    (List.map (fun item => if same_id (t_id item) (t_id template)
                           then template else item) ts)
  = List.filter (fun tpl => same_id (t_id tpl) t) ts.
Proof.
  intros Hne. induction ts as [|x ts IH]; cbn; [done|].
  destruct (same_id (t_id x) (t_id template)) eqn:E.
  - apply same_id_true in E.
    rewrite (proj2 (same_id_false (t_id template) t)) by done.
    rewrite (proj2 (same_id_false (t_id x) t)) by congruence. exact IH.
  - destruct (same_id (t_id x) t); [by rewrite IH | exact IH].
Qed.

Lemma filter_id_filter_other (t id : jsstring) (ts : list Template) :
  id ≠ t →
  List.filter (fun tpl => same_id (t_id tpl) t)
    (List.filter (fun template => negb (same_id (t_id template) id)) ts)
  = List.filter (fun tpl => same_id (t_id tpl) t) ts.
Proof.
  intros Hne. induction ts as [|x ts IH]; cbn; [done|].
  destruct (same_id (t_id x) id) eqn:E; cbn.
  - apply same_id_true in E.
    rewrite (proj2 (same_id_false (t_id x) t)) by congruence. exact IH.
  - destruct (same_id (t_id x) t); [by rewrite IH | exact IH].
Qed.

Lemma usages_of_step (formatDateTime : option jsstring → jsstring)
    (t : jsstring) (s : AppState) (o : op) :
  foreign_to t o →
  usages_of t (step formatDateTime s o)
  = if composes t o then List.map number_succ (usages_of t s)
    else usages_of t s.
Proof.
  destruct o; cbn [step foreign_to composes]; intros Hf.
  - unfold usages_of, upsertTemplate. cbn [templates].
    destruct (List.existsb _ _).
    + by rewrite filter_id_replace_other.
    + cbn. by rewrite (proj2 (same_id_false (t_id template) t)).
  - unfold usages_of, removeTemplate. cbn [templates].
    by rewrite filter_id_filter_other.
  - apply usages_of_addPost.
  - unfold usages_of.
    by rewrite (proj1 (handlers_keep_templates formatDateTime s id newId now)).
  - unfold usages_of.
    by rewrite (proj1 (proj2 (handlers_keep_templates formatDateTime s id newId now))).
  - unfold usages_of.
    by rewrite (proj2 (proj2 (handlers_keep_templates formatDateTime s id newId now))).
  - done.
Qed.

Lemma usages_of_run (formatDateTime : option jsstring → jsstring)
    (t : jsstring) (ops : list op) (s : AppState) :
  Forall (foreign_to t) ops →
  Forall (fun n => - 2 ^ 53 ≤ n ∧
                   n + Z.of_nat (length (List.filter (composes t) ops)) ≤ 2 ^ 53)
         (usages_of t s) →
  usages_of t (run formatDateTime s ops)
  = List.map (fun n => n + Z.of_nat (length (List.filter (composes t) ops)))
      (usages_of t s).
Proof.
  revert s. induction ops as [|o ops IH]; intros s Hall Hbound.
  - cbn. rewrite <- (List.map_id (usages_of t s)) at 1.
    apply List.map_ext. intros n. lia.
  - apply Forall_cons in Hall as [Ho Hall]. cbn [run foldl].
    fold (run formatDateTime (step formatDateTime s o) ops).
    cbn [List.filter] in *.
    pose proof (usages_of_step formatDateTime t s o Ho) as Hstep.
    destruct (composes t o); cbn [length] in *.
    + assert (Hexact : List.map number_succ (usages_of t s)
                       = List.map (fun n => n + 1) (usages_of t s)).
      { apply List.map_ext_in. intros n Hn%list_elem_of_In.
        apply number_succ_exact.
        pose proof (proj1 (Forall_forall _ _) Hbound n Hn) as Hb.
        cbn beta in Hb. lia. }
      rewrite IH, Hstep, Hexact; [|done|].
      * rewrite List.map_map. apply List.map_ext. intros n. lia.
      * rewrite Hstep, Hexact. apply Forall_forall.
        intros m Hm. apply list_elem_of_In, List.in_map_iff in Hm
          as (n & <- & Hn%list_elem_of_In).
        pose proof (proj1 (Forall_forall _ _) Hbound n Hn) as Hb.
        cbn beta in Hb. lia.
    + rewrite IH, Hstep; [done | done | by rewrite Hstep].
Qed.

(** C6, as the code has it.  [usageCount + 1] is an addition of doubles.
    Composing a post from an existing template puts [usageCount + 1] into
    every template that carries the identifier, which is exactly one more for
    a count [n] with [-2^53 ≤ n < 2^53], and leaves every other template as it
    was; so, over any run in which the template itself is neither saved nor
    deleted, its count grows by the number [N] of posts composed from it,
    whatever else happens in between, as long as the count stays within
    [2^53]. *)
Theorem usage_counts_compositions (formatDateTime : option jsstring → jsstring)
    (inherited_text : jsstring → jsstring)
    (s : AppState) (t : jsstring) (ops : list op) :
  (∀ c newId entryId now loggedAt,
     c_templateId c = t → is_Some (find_template t (templates s)) →
     let s' := composePost inherited_text s c newId entryId now loggedAt in
     length (templates s') = length (templates s) ∧
     ∀ k tpl, templates s !! k = Some tpl →
       (t_id tpl ≠ t → templates s' !! k = Some tpl) ∧
       (t_id tpl = t →
        templates s' !! k = Some (bump_usage tpl) ∧
        (- 2 ^ 53 ≤ t_usageCount tpl < 2 ^ 53 →
         t_usageCount (bump_usage tpl) = t_usageCount tpl + 1))) ∧
  (Forall (foreign_to t) ops →
   Forall (fun n => - 2 ^ 53 ≤ n ∧
                    n + Z.of_nat (length (List.filter (composes t) ops)) ≤ 2 ^ 53)
          (usages_of t s) →
   usages_of t (run formatDateTime s ops)
   = List.map (fun n => n + Z.of_nat (length (List.filter (composes t) ops)))
       (usages_of t s)).
Proof.
  split; [|apply usages_of_run].
  intros c newId entryId now loggedAt <- [active Hfind] s'. subst s'.
  unfold composePost, submit. rewrite Hfind.
  pose proof (find_template_id _ _ _ Hfind) as [Hid _].
  cbn [addPost templates p_templateId]. rewrite Hid.
  split; [apply length_map|].
  intros k tpl Hk. rewrite lookup_map, Hk. cbn. split.
  - intros Hne. by rewrite (proj2 (same_id_false _ _) Hne).
  - intros Heq. rewrite (proj2 (same_id_true _ _) Heq). split; [done|].
    apply number_succ_exact.
Qed.

Lemma usage_counts_compositions_witness :
  let s := mkState [sample_template (js "t1") 3; sample_template (js "t2") 5]
             [] [] in
  let ops := [OpAddPost (sample_post (js "p1") pending None) (js "e1") sample_time;
              OpUpsert (sample_template (js "t2") 0) (js "e2");
              OpAddPost (sample_post (js "p2") pending None) (js "e3") sample_time;
              OpRemoveTemplate (js "t2") (js "e4") sample_time] in
  usages_of (js "t1") (run (fun _ => js "No schedule") s ops) = [5].
Proof.
  cbv zeta.
  apply (proj2 (usage_counts_compositions (fun _ => js "No schedule")
           sample_inherited_text
           (mkState [sample_template (js "t1") 3; sample_template (js "t2") 5]
              [] [])
           (js "t1")
           [OpAddPost (sample_post (js "p1") pending None) (js "e1") sample_time;
            OpUpsert (sample_template (js "t2") 0) (js "e2");
            OpAddPost (sample_post (js "p2") pending None) (js "e3") sample_time;
            OpRemoveTemplate (js "t2") (js "e4") sample_time])).
  - repeat constructor; cbn; discriminate.
  - repeat constructor; vm_compute; discriminate.
Defined.

(** C6 fails as stated at the end of the integers a double holds: composing
    from a template whose count is 2^53 leaves the count at 2^53. *)
Lemma compose_at_two_to_53_keeps_count :
  let s := mkState [sample_template (js "t1") two_to_53] [] [] in
  let s' := composePost sample_inherited_text s (sample_composer (js "t1"))
              (js "p1") (js "e1") sample_time sample_time in
  usage_of (js "t1") s = Some two_to_53 ∧
  List.map p_templateId (posts s') = [js "t1"] ∧
  usage_of (js "t1") s' = Some two_to_53 ∧
  usage_of (js "t1") s' ≠ Some (two_to_53 + 1).
Proof. vm_compute. split_and!; try reflexivity. discriminate. Qed.

Lemma find_template_existsb (id : jsstring) (ts : list Template) :
  List.existsb (fun item => same_id (t_id item) id) ts
  = bool_decide (is_Some (find_template id ts)).
Proof.
  unfold find_template. induction ts as [|t ts IH]; cbn [List.existsb List.find].
  - symmetry. apply bool_decide_eq_false_2. by intros [? ?].
  - destruct (same_id (t_id t) id); cbn [orb]; [|exact IH].
    symmetry. by apply bool_decide_eq_true_2.
Qed.

(** C7, as the code has it.  Saving the form of an existing template whose
    identifier is not the empty string stores, at every place of a template with that identifier,
    the name, description, platforms, content and tags of the form and the
    time of the save as [updatedAt], with the [createdAt] and the
    [usageCount] the template had; every other template and every post is
    left as it was. *)
Theorem save_existing_template (s : AppState) (form : TemplateFormState)
    (fid newId entryId now : jsstring) (old : Template) :
  f_id form = Some fid →
  truthy fid = true →
  truthy (trim (f_name form)) = true →
  truthy (trim (f_content form)) = true →
  find_template fid (templates s) = Some old →
  let s' := saveTemplate s form newId entryId now in
  let saved :=
    mkTemplate fid (trim (f_name form))
      (if truthy (trim (f_description form)) then trim (f_description form)
       else js "Untitled template")
      (f_platforms form) (trim (f_content form))
      (split_trim_filter (f_tags form))
      (t_createdAt old) now (t_usageCount old) in
  posts s' = posts s ∧
  length (templates s') = length (templates s) ∧
  find_template fid (templates s') = Some saved ∧
  (∀ k t, templates s !! k = Some t →
     templates s' !! k = Some (if same_id (t_id t) fid then saved else t)).
Proof.
  intros Hid Hfid Hname Hcontent Hfind s' saved.
  assert (Hs' : s' = upsertTemplate s saved entryId).
  { subst s' saved. unfold saveTemplate, handleSubmit.
    rewrite Hname, Hcontent, Hid. cbn [negb orb default mbind option_bind].
    cbn [truthy_opt]. rewrite Hfid, Hfind. reflexivity. }
  assert (Hts : templates s'
                = List.map (fun item => if same_id (t_id item) fid
                                        then saved else item) (templates s)).
  { rewrite Hs'. unfold upsertTemplate. cbn [templates t_id saved].
    rewrite find_template_existsb, Hfind.
    rewrite bool_decide_eq_true_2; [done | by eexists]. }
  split; [by rewrite Hs'|]. rewrite Hts.
  split; [apply length_map|]. split.
  - pose proof (find_template_id _ _ _ Hfind) as [Hold _].
    clear Hts Hs'. unfold find_template in *.
    induction (templates s) as [|t ts IH]; cbn in *; [done|].
    destruct (same_id (t_id t) fid) eqn:E; cbn.
    + by rewrite (proj2 (same_id_true fid fid) eq_refl).
    + rewrite E. by apply IH.
  - intros k t Hk. by rewrite lookup_map, Hk.
Qed.

Lemma save_existing_template_witness :
  let s := mkState [sample_template (js "t1") 3; sample_template (js "t2") 5]
             [] [] in
  let s' := saveTemplate s (sample_form (Some (js "t2"))) (js "n1") (js "e1")
              sample_time in
  (t_name <$> find_template (js "t2") (templates s'),
   t_createdAt <$> find_template (js "t2") (templates s'),
   t_usageCount <$> find_template (js "t2") (templates s'))
  = (Some (js "Launch"), Some (js "2024-01-01T00:00:00.000Z"), Some 5).
Proof.
  cbv zeta.
  pose proof (save_existing_template
    (mkState [sample_template (js "t1") 3; sample_template (js "t2") 5] [] [])
    (sample_form (Some (js "t2"))) (js "t2") (js "n1") (js "e1") sample_time
    (sample_template (js "t2") 5)
    eq_refl eq_refl eq_refl eq_refl eq_refl) as (_ & _ & H & _).
  rewrite H. reflexivity.
Defined.

(** C7 fails as stated for the empty identifier: the form keeps the empty
    [id] of the template ([??]) but takes an empty [id] for no [id] when it
    looks for [createdAt] and [usageCount], so the save replaces the template
    and resets both. *)
Lemma save_with_empty_id_resets :
  let old := sample_template (js "") 5 in
  let s := mkState [old] [] [] in
  let s' := saveTemplate s (sample_form (Some (js ""))) (js "n1") (js "e1")
              sample_time in
  find_template (js "") (templates s) = Some old ∧
  length (templates s') = 1%nat ∧
  t_usageCount <$> find_template (js "") (templates s') = Some 0 ∧
  t_usageCount old = 5 ∧
  t_createdAt <$> find_template (js "") (templates s') = Some sample_time ∧
  t_createdAt old ≠ sample_time.
Proof. vm_compute. split_and!; try reflexivity. discriminate. Qed.

(** ** The workflow under the approval queue *)

Lemma elem_of_map_ids (ps : list ScheduledPost) (post : ScheduledPost) :
  post ∈ ps → p_id post ∈ List.map p_id ps.
Proof.
  intros H. apply list_elem_of_In, List.in_map. by apply list_elem_of_In.
Qed.

Lemma find_post_elem (ps : list ScheduledPost) (post : ScheduledPost) :
  NoDup (List.map p_id ps) → post ∈ ps → find_post (p_id post) ps = Some post.
Proof.
  unfold find_post. induction ps as [|a ps IH]; cbn; intros Hnd Hin.
  - by apply elem_of_nil in Hin.
  - apply NoDup_cons in Hnd as [Ha Hnd]. apply elem_of_cons in Hin as [->|Hin].
    + by rewrite (proj2 (same_id_true _ _) eq_refl).
    + rewrite (proj2 (same_id_false (p_id a) (p_id post))); [by apply IH|].
      intros E. apply Ha. rewrite E. by apply elem_of_map_ids.
Qed.

Lemma ids_update (id : jsstring) (g : ScheduledPost → ScheduledPost)
    (ps : list ScheduledPost) :
  (∀ p, p_id (g p) = p_id p) →
  List.map p_id (List.map (update_post id g) ps) = List.map p_id ps.
Proof.
  intros Hg. rewrite List.map_map. apply List.map_ext. intros p.
  unfold update_post. by destruct (same_id (p_id p) id).
Qed.

Lemma ids_filter (f : ScheduledPost → bool) (ps : list ScheduledPost)
    (x : jsstring) :
  x ∈ List.map p_id (List.filter f ps) → x ∈ List.map p_id ps.
Proof.
  induction ps as [|a ps IH]; cbn; [done|].
  destruct (f a); cbn; rewrite ?elem_of_cons; intuition.
Qed.

Lemma NoDup_ids_filter (f : ScheduledPost → bool) (ps : list ScheduledPost) :
  NoDup (List.map p_id ps) → NoDup (List.map p_id (List.filter f ps)).
Proof.
  induction ps as [|a ps IH]; cbn; [done|]. intros [Ha Hnd]%NoDup_cons.
  destruct (f a); cbn; [|by apply IH].
  apply NoDup_cons. split; [|by apply IH].
  intros Hin. by apply Ha, (ids_filter f).
Qed.

Lemma Forall_filter_bool {A} (P : A → Prop) (f : A → bool) (l : list A) :
  Forall P l → Forall P (List.filter f l).
Proof.
  induction 1 as [|a l Ha Hl IH]; cbn; [done|].
  destruct (f a); [by constructor | done].
Qed.

Lemma find_post_filter_other (id id' : jsstring) (ps : list ScheduledPost) :
  id' ≠ id →
  find_post id (List.filter (fun post => negb (same_id (p_id post) id')) ps)
  = find_post id ps.
Proof.
  intros Hne. unfold find_post. induction ps as [|a ps IH]; cbn; [done|].
  destruct (same_id (p_id a) id') eqn:E; cbn.
  - apply same_id_true in E.
    rewrite (proj2 (same_id_false (p_id a) id)) by congruence. exact IH.
  - destruct (same_id (p_id a) id); [done | exact IH].
Qed.

(** One update of the post [id] by [g], when [g] moves that post forward and
    leaves identifiers and schedules alone. *)
Lemma update_forward (ps : list ScheduledPost) (id : jsstring)
    (g : ScheduledPost → ScheduledPost) (post : ScheduledPost) :
  NoDup (List.map p_id ps) → Forall schedule_ok ps →
  find_post id ps = Some post →
  (∀ p, p_id (g p) = p_id p) →
  (∀ p, p_scheduledAt (g p) = p_scheduledAt p) →
  (rank (p_status post) ≤ rank (p_status (g post)))%nat →
  schedule_ok (g post) →
  let ps' := List.map (update_post id g) ps in
  NoDup (List.map p_id ps') ∧ Forall schedule_ok ps' ∧
  ∀ i p, find_post i ps = Some p →
    ∃ p', find_post i ps' = Some p' ∧
          (rank (p_status p) ≤ rank (p_status p'))%nat ∧
          p_scheduledAt p' = p_scheduledAt p.
Proof.
  intros Hnd Hok Hfind Hid Hsched Hrank Hgok ps'.
  assert (Hsame : ∀ x, x ∈ ps → p_id x = id → x = post).
  { intros x Hx Hxid. apply (find_post_elem ps x Hnd) in Hx.
    rewrite Hxid, Hfind in Hx. congruence. }
  split; [|split].
  - subst ps'. by rewrite ids_update.
  - subst ps'. apply Forall_forall. intros y Hy.
    apply list_elem_of_In, List.in_map_iff in Hy as (x & <- & Hx).
    apply list_elem_of_In in Hx. unfold update_post.
    destruct (same_id (p_id x) id) eqn:E.
    + apply same_id_true in E. by rewrite (Hsame x Hx E).
    + by apply (proj1 (Forall_forall _ _) Hok).
  - intros i p Hp. subst ps'. rewrite find_post_map, Hp.
    2:{ intros x. unfold update_post. by destruct (same_id (p_id x) id). }
    eexists. split; [reflexivity|]. unfold update_post.
    destruct (same_id (p_id p) id) eqn:E; [|done].
    apply same_id_true in E. apply find_post_id in Hp as [_ Hp].
    rewrite (Hsame p Hp E). by rewrite Hsched.
Qed.

Lemma offered_step (formatDateTime : option jsstring → jsstring)
    (s : AppState) (o : op) :
  queue_ok s → offered s o →
  queue_ok (step formatDateTime s o) ∧
  ∀ i p, keeps_post i o → find_post i (posts s) = Some p →
    ∃ p', find_post i (posts (step formatDateTime s o)) = Some p' ∧
          (rank (p_status p) ≤ rank (p_status p'))%nat ∧
          p_scheduledAt p' = p_scheduledAt p.
Proof.
  intros [Hnd Hok] Hoff. unfold queue_ok.
  destruct o; cbn [step offered keeps_post] in *.
  - split; [done|]. intros i p _ Hp. by exists p.
  - split; [done|]. intros i p _ Hp. by exists p.
  - destruct Hoff as [Hst Hfresh]. cbn [addPost posts]. split.
    + split; [by apply NoDup_cons | apply Forall_cons; split; [|done]].
      unfold schedule_ok. by rewrite Hst.
    + intros i p _ Hp. exists p. split; [|done].
      unfold find_post in *. cbn.
      rewrite (proj2 (same_id_false (p_id post) i)); [done|].
      intros <-. apply Hfresh.
      apply List.find_some in Hp as [Hin E]. apply same_id_true in E.
      rewrite <- E. by apply elem_of_map_ids, list_elem_of_In.
  - destruct Hoff as (post & Hin & <- & Hgate).
    apply status_eqb_eq in Hgate.
    pose proof (find_post_elem _ _ Hnd Hin) as Hfind.
    unfold handleApprove. rewrite Hfind. cbn [posts].
    destruct (update_forward (posts s) (p_id post)
                (fun item => with_approved item approved now) post)
      as (H1 & H2 & H3); try done.
    + cbn. rewrite Hgate. cbn. lia.
    + split; [done|]. intros i p _. apply H3.
  - destruct Hoff as (post & Hin & <- & Hgate).
    apply andb_true_iff in Hgate as [Hgate Hsch].
    apply status_eqb_eq in Hgate.
    pose proof (find_post_elem _ _ Hnd Hin) as Hfind.
    unfold handleSchedule. rewrite Hfind. cbn [posts].
    destruct (update_forward (posts s) (p_id post)
                (fun item => with_status item scheduled) post)
      as (H1 & H2 & H3); try done.
    + cbn. rewrite Hgate. cbn. lia.
    + intros _. exact Hsch.
    + split; [done|]. intros i p _. apply H3.
  - destruct Hoff as (post & Hin & <- & Hgate).
    pose proof (find_post_elem _ _ Hnd Hin) as Hfind.
    unfold handlePublish. rewrite Hfind. cbn [posts].
    destruct (update_forward (posts s) (p_id post)
                (fun item => with_published item published now) post)
      as (H1 & H2 & H3); try done.
    + cbn. destruct (p_status post); cbn; lia.
    + split; [done|]. intros i p _. apply H3.
  - cbn [deletePost posts]. split.
    + split; [by apply NoDup_ids_filter | by apply Forall_filter_bool].
    + intros i p Hkeep Hp. exists p.
      by rewrite find_post_filter_other.
Qed.

Lemma offered_run_app (formatDateTime : option jsstring → jsstring)
    (s : AppState) (ops1 ops2 : list op) :
  offered_run formatDateTime s (ops1 ++ ops2) ↔
  offered_run formatDateTime s ops1 ∧
  offered_run formatDateTime (run formatDateTime s ops1) ops2.
Proof.
  revert s. induction ops1 as [|o ops1 IH]; intros s; cbn; [tauto|].
  rewrite IH. tauto.
Qed.

Lemma run_app (formatDateTime : option jsstring → jsstring)
    (s : AppState) (ops1 ops2 : list op) :
  run formatDateTime s (ops1 ++ ops2)
  = run formatDateTime (run formatDateTime s ops1) ops2.
Proof. unfold run. apply foldl_app. Qed.

Lemma queue_ok_run (formatDateTime : option jsstring → jsstring)
    (s : AppState) (ops : list op) :
  queue_ok s → offered_run formatDateTime s ops →
  queue_ok (run formatDateTime s ops).
Proof.
  revert s. induction ops as [|o ops IH]; intros s Hok Hoff; [done|].
  destruct Hoff as [Ho Hoff]. cbn. apply IH; [|done].
  by apply offered_step.
Qed.

(** C2, as the code has it.  The handlers do not enforce the order; the
    approval queue does.  Start from a workspace whose posts carry distinct
    identifiers and whose scheduled posts have a schedule, and run operations
    the page offers.  Then the status a post has at one moment is at most the
    status it has at any later moment of its life (the post is not deleted in
    between), its [scheduledAt] never changes, and whenever it is
    [scheduled] its [scheduledAt] is set. *)
Theorem status_monotone_under_queue
    (formatDateTime : option jsstring → jsstring)
    (s : AppState) (ops1 ops2 : list op) (i : jsstring) (p1 : ScheduledPost) :
  queue_ok s →
  offered_run formatDateTime s (ops1 ++ ops2) →
  find_post i (posts (run formatDateTime s ops1)) = Some p1 →
  Forall (keeps_post i) ops2 →
  ∃ p2, find_post i (posts (run formatDateTime s (ops1 ++ ops2))) = Some p2 ∧
        (rank (p_status p1) ≤ rank (p_status p2))%nat ∧
        p_scheduledAt p2 = p_scheduledAt p1 ∧
        (p_status p2 = scheduled → truthy_opt (p_scheduledAt p2) = true).
Proof.
  intros Hok Hoff Hp1 Hkeep.
  apply offered_run_app in Hoff as [Hoff1 Hoff2]. rewrite run_app.
  pose proof (queue_ok_run _ _ _ Hok Hoff1) as Hok1.
  revert Hoff2 Hok1 Hp1 Hkeep. generalize (run formatDateTime s ops1).
  clear s Hok Hoff1. intros s. revert s p1.
  induction ops2 as [|o ops IH]; intros s p1 Hoff Hok Hp1 Hkeep.
  - exists p1. cbn. split; [done|]. split; [done|]. split; [done|].
    destruct Hok as [_ Hok]. apply find_post_id in Hp1 as [_ Hin].
    by apply (proj1 (Forall_forall _ _) Hok).
  - destruct Hoff as [Ho Hoff]. apply Forall_cons in Hkeep as [Hk Hkeep].
    destruct (offered_step formatDateTime s o Hok Ho) as [Hok' Hstep].
    destruct (Hstep i p1 Hk Hp1) as (p' & Hp' & Hr & Hs).
    destruct (IH _ p' Hoff Hok' Hp' Hkeep) as (p2 & Hp2 & Hr2 & Hs2 & Hinv).
    exists p2. cbn. split; [done|]. split; [lia|]. split; [congruence|done].
Qed.

Lemma status_monotone_under_queue_witness :
  let s := mkState [] [sample_post (js "p1") pending (Some (js "2024-02-01T10:00"))] [] in
  let ops1 := [OpApprove (js "p1") (js "e1") sample_time] in
  let ops2 := [OpSchedule (js "p1") (js "e2") sample_time;
               OpPublish (js "p1") (js "e3") sample_time] in
  ∃ p2, find_post (js "p1")
          (posts (run (fun _ => js "Feb 1, 10:00 AM") s (ops1 ++ ops2))) = Some p2 ∧
        (1 ≤ rank (p_status p2))%nat ∧
        p_scheduledAt p2 = Some (js "2024-02-01T10:00") ∧
        (p_status p2 = scheduled → truthy_opt (p_scheduledAt p2) = true).
Proof.
  cbv zeta.
  apply (status_monotone_under_queue (fun _ => js "Feb 1, 10:00 AM")
           (mkState [] [sample_post (js "p1") pending (Some (js "2024-02-01T10:00"))] [])
           [OpApprove (js "p1") (js "e1") sample_time]
           [OpSchedule (js "p1") (js "e2") sample_time;
            OpPublish (js "p1") (js "e3") sample_time]
           (js "p1")
           (with_approved (sample_post (js "p1") pending (Some (js "2024-02-01T10:00")))
              approved sample_time)).
  - split; cbn.
    + apply NoDup_singleton.
    + apply Forall_singleton. intros H. discriminate H.
  - cbn. repeat split; eexists;
      (split; [apply list_elem_of_here | split; reflexivity]).
  - reflexivity.
  - repeat constructor.
Defined.

(** C2 fails as stated, on the handlers alone: publishing a pending post and
    then approving it takes its status from [published] back to [approved],
    and scheduling a post that has no [scheduledAt] makes it [scheduled]. *)
Lemma handlers_do_not_order_statuses :
  let fmt := fun _ : option jsstring => js "No schedule" in
  let s := mkState [] [sample_post (js "p1") pending None] [] in
  let s1 := run fmt s [OpPublish (js "p1") (js "e1") sample_time] in
  let s2 := run fmt s [OpPublish (js "p1") (js "e1") sample_time;
                       OpApprove (js "p1") (js "e2") sample_time] in
  let s3 := run fmt s [OpSchedule (js "p1") (js "e1") sample_time] in
  p_status <$> find_post (js "p1") (posts s1) = Some published ∧
  p_status <$> find_post (js "p1") (posts s2) = Some approved ∧
  (rank approved < rank published)%nat ∧
  p_status <$> find_post (js "p1") (posts s3) = Some scheduled ∧
  p_scheduledAt <$> find_post (js "p1") (posts s3) = Some None.
Proof. cbn. repeat split. lia. Qed.

(** ** The scan of a template body *)

Lemma span_not_rbrace_spec (s : jsstring) :
  let '(run, rest) := span_not_rbrace s in
  s = run ++ rest ∧ (rbrace ∉ run) ∧ (rest = [] ∨ ∃ t, rest = rbrace :: t).
Proof.
  induction s as [|c s IH]; cbn.
  - split; [done|]. split; [apply not_elem_of_nil | by left].
  - destruct (N.eqb_spec c rbrace) as [->|Hne].
    + split; [done|]. split; [apply not_elem_of_nil | right; by eexists].
    + destruct (span_not_rbrace s) as [run rest]. destruct IH as (-> & Hrun & Hrest).
      split; [done|]. split; [|done].
      rewrite not_elem_of_cons. split; [congruence | done].
Qed.

Lemma span_not_rbrace_app (capture rest : jsstring) :
  rbrace ∉ capture →
  span_not_rbrace (capture ++ rbrace :: rest) = (capture, rbrace :: rest).
Proof.
  induction capture as [|c capture IH]; cbn; intros Hnot.
  - reflexivity.
  - apply not_elem_of_cons in Hnot as [Hc Hnot].
    destruct (N.eqb_spec c rbrace) as [->|_]; [done|]. by rewrite IH.
Qed.

Lemma span_not_rbrace_free (s : jsstring) :
  rbrace ∉ s → span_not_rbrace s = (s, []).
Proof.
  induction s as [|c s IH]; cbn; intros Hnot; [done|].
  apply not_elem_of_cons in Hnot as [Hc Hnot].
  destruct (N.eqb_spec c rbrace) as [->|_]; [done|]. by rewrite IH.
Qed.

Lemma match_here_Some (s capture rest : jsstring) :
  match_here s = Some (capture, rest) ↔
  s = token_of capture ++ rest ∧ capture ≠ [] ∧ rbrace ∉ capture.
Proof.
  unfold token_of. split.
  - destruct s as [|c t]; cbn; [done|].
    destruct (N.eqb_spec c lbrace) as [->|_]; [|done].
    pose proof (span_not_rbrace_spec t) as H.
    destruct (span_not_rbrace t) as [[|x run] [|y rest']]; try done.
    destruct H as (-> & Hrun & [?|[t' [= -> ->]]]); [done|].
    intros [= <- <-]. split; [|done].
    by rewrite <- app_assoc.
  - intros (-> & Hne & Hnot). cbn. rewrite <- app_assoc. cbn.
    rewrite span_not_rbrace_app by done.
    by destruct capture.
Qed.

Lemma match_here_lbrace_None (t : jsstring) :
  match_here (lbrace :: t) = None →
  (∃ t', t = rbrace :: t') ∨ rbrace ∉ t.
Proof.
  cbn. pose proof (span_not_rbrace_spec t) as H.
  destruct (span_not_rbrace t) as [[|x run] [|y rest']]; try done; intros _.
  - destruct H as (-> & _ & _). right. apply not_elem_of_nil.
  - destruct H as (-> & _ & [?|[t' [= -> ->]]]); [done|]. left. by eexists.
  - destruct H as (-> & Hrun & _). right. by rewrite app_nil_r.
Qed.

Lemma match_here_not_lbrace (c : N) (t : jsstring) :
  c ≠ lbrace → match_here (c :: t) = None.
Proof. cbn. by destruct (N.eqb_spec c lbrace). Qed.

Lemma scan_from_skip (pre s : jsstring) :
  scan_from (length pre) (pre ++ s) = scan_from 0 s.
Proof. induction pre as [|c pre IH]; [done | exact IH]. Qed.

Lemma scan_token (capture rest : jsstring) :
  capture ≠ [] → rbrace ∉ capture →
  scan (token_of capture ++ rest) = Tok capture :: scan rest.
Proof.
  intros Hne Hnot. unfold scan.
  assert (H : match_here (token_of capture ++ rest) = Some (capture, rest))
    by by apply match_here_Some.
  unfold token_of in *. cbn [app scan_from]. cbn [app] in H. rewrite H.
  f_equal. rewrite <- app_assoc.
  replace (S (length capture)) with (length (capture ++ [rbrace]))
    by (rewrite length_app; cbn; lia).
  rewrite (app_assoc capture [rbrace] rest). apply scan_from_skip.
Qed.

Lemma scan_literal (c : N) (t : jsstring) :
  match_here (c :: t) = None → scan (c :: t) = Lit c :: scan t.
Proof. intros H. unfold scan. cbn [scan_from]. by rewrite H. Qed.

(** Induction along the scan: a body is empty, or starts with a token, or
    starts with a code unit at which the expression does not match. *)
Lemma scan_ind (P : jsstring → Prop) :
  P [] →
  (∀ capture rest, capture ≠ [] → rbrace ∉ capture →
     P rest → P (token_of capture ++ rest)) →
  (∀ c t, match_here (c :: t) = None → P t → P (c :: t)) →
  ∀ s, P s.
Proof.
  intros Hnil Htok Hlit s.
  induction s as [s IH] using (induction_ltof1 _ (@length N)).
  unfold ltof in IH. destruct s as [|c t]; [done|].
  destruct (match_here (c :: t)) as [[capture rest]|] eqn:E.
  - apply match_here_Some in E as (E & Hne & Hnot). rewrite E.
    apply Htok; [done..|]. apply IH. rewrite E. unfold token_of.
    cbn. rewrite !length_app. cbn. lia.
  - apply Hlit; [done|]. apply IH. cbn. lia.
Qed.

Lemma scan_partition (s : jsstring) :
  List.concat (List.map piece_text (scan s)) = s.
Proof.
  induction s as [|capture rest Hne Hnot IH|c t Hm IH] using scan_ind.
  - reflexivity.
  - rewrite scan_token by done. cbn [List.map List.concat piece_text].
    by rewrite IH.
  - rewrite scan_literal by done. cbn. by rewrite IH.
Qed.

(** ** Message merger *)

Lemma merge_nil (inherited_text : jsstring → jsstring)
    (values : gmap jsstring jsstring) :
  mergeTemplateContent inherited_text [] values = [].
Proof. reflexivity. Qed.

Lemma merge_token_step (inherited_text : jsstring → jsstring)
    (values : gmap jsstring jsstring) (capture rest : jsstring) :
  capture ≠ [] → rbrace ∉ capture →
  mergeTemplateContent inherited_text (token_of capture ++ rest) values
  = merge_token inherited_text values capture
    ++ mergeTemplateContent inherited_text rest values.
Proof.
  intros Hne Hnot. unfold mergeTemplateContent, str_replace.
  by rewrite scan_token.
Qed.

Lemma merge_literal_step (inherited_text : jsstring → jsstring)
    (values : gmap jsstring jsstring) (c : N) (t : jsstring) :
  match_here (c :: t) = None →
  mergeTemplateContent inherited_text (c :: t) values
  = c :: mergeTemplateContent inherited_text t values.
Proof.
  intros H. unfold mergeTemplateContent, str_replace.
  by rewrite scan_literal.
Qed.

Lemma match_here_no_rbrace (s : jsstring) :
  rbrace ∉ s → match_here s = None.
Proof.
  destruct s as [|c t]; [done|]. cbn. intros [_ Hnot]%not_elem_of_cons.
  destruct (c =? lbrace)%N; [|done].
  rewrite span_not_rbrace_free by done. by destruct t.
Qed.


Lemma get_property_own (inherited_text : jsstring → jsstring)
    (values : gmap jsstring jsstring) (key v : jsstring) :
  values !! key = Some v → get_property inherited_text values key = Some v.
Proof. intros H. unfold get_property. by rewrite H. Qed.

Lemma get_property_absent (inherited_text : jsstring → jsstring)
    (values : gmap jsstring jsstring) (key : jsstring) :
  values !! key = None → key ∉ object_prototype_names →
  get_property inherited_text values key = None.
Proof.
  intros H Hnot. unfold get_property. rewrite H.
  by rewrite bool_decide_eq_false_2.
Qed.





Example merge_unresolved_field :
  mergeTemplateContent sample_inherited_text (js "{a}-{b}")
    {[ js "a" := js "x" ]} = js "x-{b}".
Proof. vm_compute. reflexivity. Qed.

Example merge_explicit_empty :
  mergeTemplateContent sample_inherited_text (js "{a}")
    {[ js "a" := js "" ]} = js "".
Proof. vm_compute. reflexivity. Qed.

(** ** Placeholder extractor *)

Lemma starts_with_app (t post : jsstring) : starts_with (t ++ post) t = true.
Proof. induction t as [|y t IH]; cbn; [done|]. by rewrite N.eqb_refl. Qed.

Lemma contains_includes (s t : jsstring) : contains s t → includes s t = true.
Proof.
  assert (Hstart : ∀ u, starts_with u t = true → includes u t = true).
  { intros [|x u] H; cbn [includes]; by rewrite H. }
  intros (pre & post & ->). induction pre as [|c pre IH]; cbn [app].
  - apply Hstart, starts_with_app.
  - cbn [includes]. rewrite IH. apply orb_true_r.
Qed.

Lemma captures_nil : captures [] = [].
Proof. reflexivity. Qed.

Lemma captures_token (capture rest : jsstring) :
  capture ≠ [] → rbrace ∉ capture →
  captures (token_of capture ++ rest) = capture :: captures rest.
Proof. intros Hne Hnot. unfold captures. by rewrite scan_token. Qed.

Lemma captures_literal (c : N) (t : jsstring) :
  match_here (c :: t) = None → captures (c :: t) = captures t.
Proof. intros H. unfold captures. by rewrite scan_literal. Qed.

Lemma captures_no_rbrace (s : jsstring) : rbrace ∉ s → captures s = [].
Proof.
  induction s as [|c t IH]; [done|]. intros Hnot.
  rewrite captures_literal by by apply match_here_no_rbrace.
  apply not_elem_of_cons in Hnot as [_ Hnot]. by apply IH.
Qed.

Lemma captures_ok (s : jsstring) :
  Forall (fun capture => capture ≠ [] ∧ rbrace ∉ capture) (captures s).
Proof.
  induction s as [|capture rest Hne Hnot IH|c t Hm IH] using scan_ind.
  - constructor.
  - rewrite captures_token by done. by constructor.
  - by rewrite captures_literal.
Qed.

Lemma remove_braces_token (capture : jsstring) :
  remove_braces (token_of capture) = remove_braces capture.
Proof.
  unfold remove_braces, token_of. cbn. rewrite List.filter_app. cbn.
  apply app_nil_r.
Qed.

Lemma remove_braces_id (s : jsstring) :
  lbrace ∉ s → rbrace ∉ s → remove_braces s = s.
Proof.
  unfold remove_braces. induction s as [|c s IH]; cbn; [done|].
  intros [Hl Hls]%not_elem_of_cons [Hr Hrs]%not_elem_of_cons.
  destruct (N.eqb_spec c lbrace); [done|].
  destruct (N.eqb_spec c rbrace); [done|]. cbn. by rewrite IH.
Qed.

Lemma remove_braces_free (s : jsstring) :
  (lbrace ∉ remove_braces s) ∧ (rbrace ∉ remove_braces s).
Proof.
  unfold remove_braces. induction s as [|c s [IHl IHr]]; cbn.
  - split; apply not_elem_of_nil.
  - destruct (N.eqb_spec c lbrace); [done|].
    destruct (N.eqb_spec c rbrace); [done|]. cbn.
    rewrite !not_elem_of_cons. by repeat split.
Qed.

(** The set of the extractor, filled from the cleaned tokens. *)
Lemma parsePlaceholders_fold (template : jsstring) :
  parsePlaceholders template
  = foldl (fun set x => set_add x set) []
      (List.filter truthy
         (List.map (fun capture => trim (remove_braces capture))
                   (captures template))).
Proof.
  unfold parsePlaceholders, str_match.
  assert (H : ∀ caps set,
    foldl (fun placeholders token =>
             if truthy (trim (remove_braces token))
             then set_add (trim (remove_braces token)) placeholders
             else placeholders) set (List.map token_of caps)
    = foldl (fun set x => set_add x set) set
        (List.filter truthy
           (List.map (fun capture => trim (remove_braces capture)) caps))).
  { induction caps as [|capture caps IH]; intros set; [done|].
    cbn [List.map List.filter foldl]. rewrite remove_braces_token.
    destruct (truthy (trim (remove_braces capture))); cbn [foldl]; apply IH. }
  destruct (captures template) as [|capture caps]; [done|].
  apply (H (capture :: caps)).
Qed.

Lemma set_add_fold (l set : list jsstring) :
  NoDup set →
  ∃ new, foldl (fun set x => set_add x set) set l = set ++ new ∧
         NoDup (set ++ new) ∧
         (∀ x, x ∈ new ↔ x ∈ l ∧ x ∉ set) ∧
         (∀ i j a b, new !! i = Some a → new !! j = Some b → (i < j)%nat →
            ∃ k, l !! k = Some a ∧ b ∉ take k l).
Proof.
  revert set. induction l as [|x l IH]; intros set Hnd.
  - exists []. rewrite app_nil_r. split_and!; try done.
    intros y. split; [by intros ?%elem_of_nil | by intros [?%elem_of_nil _]].
  - cbn [foldl]. unfold set_add at 2. case_bool_decide as Hx.
    + destruct (IH set Hnd) as (new & -> & Hnd' & Hmem & Hord).
      exists new. split_and!; try done.
      * intros y. rewrite Hmem, elem_of_cons. split; [tauto|].
        intros [[->|Hin] Hnot]; [done | tauto].
      * intros i j a b Ha Hb Hij.
        destruct (Hord i j a b Ha Hb Hij) as (k & Hk & Hnb).
        exists (S k). split; [done|]. cbn. rewrite not_elem_of_cons.
        split; [|done]. intros ->.
        assert (x ∈ new) as Hin by by eapply list_elem_of_lookup_2.
        by apply Hmem in Hin as [_ ?].
    + assert (Hnd1 : NoDup (set ++ [x])).
      { apply NoDup_app. split_and!; [done| |apply NoDup_singleton].
        by intros y Hy ->%list_elem_of_singleton. }
      destruct (IH (set ++ [x]) Hnd1) as (new & -> & Hnd' & Hmem & Hord).
      exists (x :: new). rewrite <- app_assoc in *. cbn [app] in *.
      split_and!; try done.
      * intros y. rewrite !elem_of_cons, Hmem, elem_of_app,
          list_elem_of_singleton.
        destruct (decide (y = x)) as [->|Hne]; tauto.
      * intros [|i] [|j] a b Ha Hb Hij; try lia.
        -- injection Ha as <-. exists 0%nat. split; [done|]. cbn.
           apply not_elem_of_nil.
        -- cbn in Ha, Hb. assert (Hij' : (i < j)%nat) by lia.
           destruct (Hord i j a b Ha Hb Hij') as (k & Hk & Hnb).
           exists (S k). split; [done|]. cbn. rewrite not_elem_of_cons.
           split; [|done]. intros ->.
           assert (x ∈ new) as Hin by by eapply list_elem_of_lookup_2.
           apply Hmem in Hin as [_ Hin]. apply Hin.
           rewrite elem_of_app, list_elem_of_singleton. tauto.
Qed.

Lemma parsePlaceholders_nested_free (template : jsstring) :
  nested_free template →
  parsePlaceholders template
  = foldl (fun set x => set_add x set) [] (trimmed_names template).
Proof.
  intros Hfree. rewrite parsePlaceholders_fold. unfold trimmed_names.
  do 2 f_equal. apply List.map_ext_in. intros capture Hin%list_elem_of_In.
  f_equal. apply remove_braces_id.
  - by apply (proj1 (Forall_forall _ _) Hfree).
  - by apply (proj1 (Forall_forall _ _) (captures_ok template)).
Qed.

(** C5, as the code has it.  When no token of the body has a [{] between its
    braces, the extractor returns the trimmed, non-empty names of the tokens
    without repetition, each name at the place of its first appearance.  The
    tokens are those of the scan: a token is [{], a non-empty capture without
    [}], and [}]; a [{] that starts no token is plain text. *)
Theorem extractor_first_appearance (template : jsstring) :
  (nested_free template →
   NoDup (parsePlaceholders template) ∧
   (∀ n, n ∈ parsePlaceholders template ↔ n ∈ trimmed_names template) ∧
   (∀ i j a b,
      parsePlaceholders template !! i = Some a →
      parsePlaceholders template !! j = Some b → (i < j)%nat →
      ∃ k, trimmed_names template !! k = Some a ∧
           b ∉ take k (trimmed_names template))) ∧
  (captures [] = [] ∧
   (∀ capture rest, capture ≠ [] → rbrace ∉ capture →
      captures (token_of capture ++ rest) = capture :: captures rest) ∧
   (∀ c t, c ≠ lbrace → captures (c :: t) = captures t) ∧
   (∀ t, captures (lbrace :: rbrace :: t) = captures t) ∧
   (∀ t, rbrace ∉ t → captures (lbrace :: t) = [])) ∧
  parsePlaceholders (js "hi {a} and {a} and {b}") = [js "a"; js "b"] ∧
  parsePlaceholders (js "no fields") = [].
Proof.
  split_and!.
  - intros Hfree. rewrite parsePlaceholders_nested_free by done.
    destruct (set_add_fold (trimmed_names template) [] (NoDup_nil_2))
      as (new & -> & Hnd & Hmem & Hord).
    cbn [app] in *. split_and!; [done | | done].
    intros n. rewrite Hmem. split; [tauto|].
    intros H. split; [done | apply not_elem_of_nil].
  - reflexivity.
  - apply captures_token.
  - intros c t Hc. by apply captures_literal, match_here_not_lbrace.
  - reflexivity.
  - intros t Hnot. apply captures_no_rbrace. rewrite not_elem_of_cons.
    by split.
  - vm_compute. reflexivity.
  - vm_compute. reflexivity.
Qed.

Lemma extractor_first_appearance_witness :
  nested_free (js "x {a} y { b } z {a} {  }") ∧
  (∀ n, n ∈ parsePlaceholders (js "x {a} y { b } z {a} {  }")
        ↔ n ∈ [js "a"; js "b"; js "a"]).
Proof.
  assert (Hfree : nested_free (js "x {a} y { b } z {a} {  }")).
  { unfold nested_free. vm_compute captures.
    repeat constructor; intros H; repeat (apply elem_of_cons in H as [H|H]);
      solve [discriminate H | by apply elem_of_nil in H]. }
  split; [exact Hfree|].
  apply (proj1 (extractor_first_appearance (js "x {a} y { b } z {a} {  }"))).
  exact Hfree.
Defined.

(** C5 fails as stated on a nested brace: the extractor takes the braces out
    of the whole token, so [{a{b}] yields the name [ab], which is not the text
    between the braces and does not occur in the body at all. *)
Lemma extractor_joins_nested_token :
  captures (js "{a{b}") = [js "a{b"] ∧
  parsePlaceholders (js "{a{b}") = [js "ab"] ∧
  (js "ab" ∉ trimmed_names (js "{a{b}")) ∧
  ¬ contains (js "{a{b}") (js "ab").
Proof.
  split_and!.
  - vm_compute. reflexivity.
  - vm_compute. reflexivity.
  - vm_compute trimmed_names. intros H%list_elem_of_singleton. discriminate H.
  - intros H%contains_includes. vm_compute in H. discriminate H.
Qed.

(** ** Extractor and merger together *)

Lemma match_run_app (q : matcher) (a b : jsstring) :
  match_run q (a ++ b) = match_run q a ≫= fun q' => match_run q' b.
Proof.
  revert q. induction a as [|c a IH]; intros q; cbn; [done|].
  destruct (match_step q c); [apply IH | done].
Qed.

Lemma match_run_capture (q : matcher) (capture : jsstring) :
  q ≠ Idle → capture ≠ [] → rbrace ∉ capture →
  match_run q capture = Some Running.
Proof.
  revert q. induction capture as [|c capture IH]; intros q Hq Hne Hr; [done|].
  apply not_elem_of_cons in Hr as [Hc Hr]. cbn. unfold match_step.
  destruct (N.eqb_spec c rbrace); [done|].
  assert (Hstep : match_run Running capture = Some Running).
  { destruct capture as [|c' capture']; [done|]. by apply IH. }
  destruct (c =? lbrace)%N; by destruct q.
Qed.

Lemma match_run_token (q : matcher) (capture rest : jsstring) :
  capture ≠ [] → rbrace ∉ capture →
  match_run q (token_of capture ++ rest) = None.
Proof.
  intros Hne Hr. unfold token_of. cbn [app match_run].
  assert (Hopen : ∃ q', match_step q lbrace = Some q' ∧ q' ≠ Idle).
  { destruct q; by eexists. }
  destruct Hopen as (q' & -> & Hq').
  rewrite <- app_assoc, match_run_app, match_run_capture by done.
  reflexivity.
Qed.

Lemma match_run_contains (q : matcher) (out capture : jsstring) :
  contains out (token_of capture) → capture ≠ [] → rbrace ∉ capture →
  match_run q out = None.
Proof.
  intros (pre & post & ->) Hne Hr. rewrite match_run_app.
  destruct (match_run q pre) as [q1|]; [|done]. cbn [mbind option_bind].
  by apply match_run_token.
Qed.

Lemma match_run_no_captures (out : jsstring) (q : matcher) :
  is_Some (match_run q out) → captures out = [].
Proof.
  revert q.
  induction out as [|capture rest Hne Hnot IH|c t Hm IH] using scan_ind;
    intros q Hq.
  - done.
  - rewrite match_run_token in Hq by done. by destruct Hq.
  - rewrite captures_literal by done. cbn in Hq.
    destruct (match_step q c) as [q'|]; [by apply (IH q') | by destruct Hq].
Qed.

Lemma match_run_no_lbrace (v : jsstring) :
  lbrace ∉ v → match_run Idle v = Some Idle.
Proof.
  induction v as [|c v IH]; [done|]. intros [Hc Hv]%not_elem_of_cons.
  cbn. unfold match_step. destruct (c =? rbrace)%N; [by apply IH|].
  destruct (N.eqb_spec c lbrace); [done | by apply IH].
Qed.

Lemma merge_match (inherited_text : jsstring → jsstring)
    (values : gmap jsstring jsstring) (s : jsstring) :
  (∀ k v, values !! k = Some v → lbrace ∉ v) →
  Forall (fun capture => (lbrace ∉ capture) ∧
                         (trim capture ≠ [] → is_Some (values !! trim capture)))
         (captures s) →
  ∀ q, match_safe q s →
       is_Some (match_run q (mergeTemplateContent inherited_text s values)).
Proof.
  intros Hvalues.
  induction s as [|capture rest Hne Hnot IH|c t Hm IH] using scan_ind;
    intros Hcaps q Hsafe.
  - by eexists.
  - rewrite captures_token in Hcaps by done.
    apply Forall_cons in Hcaps as [[Hnest Hkey] Hcaps].
    assert (q = Idle) as ->.
    { destruct Hsafe as [?|[[_ [t Ht]]|Hno]]; [done|discriminate Ht|].
      exfalso. apply Hno. unfold token_of.
      apply elem_of_app; left. apply elem_of_cons; right.
      apply elem_of_app; right. apply list_elem_of_here. }
    rewrite merge_token_step, match_run_app by done.
    assert (Hrepl : match_run Idle (merge_token inherited_text values capture)
                    = Some Idle).
    { unfold merge_token.
      destruct (values !! trim capture) as [v|] eqn:Ev.
      - rewrite (get_property_own _ _ _ v Ev).
        eapply match_run_no_lbrace, Hvalues, Ev.
      - destruct (trim capture) as [|x key] eqn:Ek.
        + rewrite get_property_absent; [reflexivity | done |].
          vm_compute. intros H.
          repeat (apply elem_of_cons in H as [H|H]; [discriminate H|]).
          by apply elem_of_nil in H.
        + destruct Hkey as [? ?]; [done|]. congruence. }
    rewrite Hrepl. cbn [mbind option_bind]. apply IH; [done | by left].
  - rewrite captures_literal in Hcaps by done.
    rewrite merge_literal_step by done. cbn [match_run]. unfold match_step.
    destruct Hsafe as [->|[[-> [t' Ht']]|Hno]].
    + destruct (N.eqb_spec c rbrace) as [->|Hcr]; [apply IH; [done|by left]|].
      destruct (N.eqb_spec c lbrace) as [->|Hcl]; [|apply IH; [done|by left]].
      apply IH; [done|]. right.
      destruct (match_here_lbrace_None t Hm) as [Ht|Ht]; [left|right]; done.
    + injection Ht' as -> ->. cbn. apply IH; [done | by left].
    + apply not_elem_of_cons in Hno as [Hc Hno].
      destruct (N.eqb_spec c rbrace); [done|].
      destruct (c =? lbrace)%N; destruct q; apply IH; try done;
        by right; right.
Qed.

Lemma elem_of_trimStart (x : N) (s : jsstring) : x ∈ trimStart s → x ∈ s.
Proof.
  induction s as [|c s IH]; cbn; [done|].
  destruct (is_space c); [|done]. intros H. apply elem_of_cons. right. auto.
Qed.

Lemma elem_of_trim (x : N) (s : jsstring) : x ∈ trim s → x ∈ s.
Proof.
  unfold trim, trimEnd. intros H. apply elem_of_trimStart.
  apply list_elem_of_In, List.in_rev, list_elem_of_In.
  apply elem_of_trimStart. by apply list_elem_of_In, List.in_rev, list_elem_of_In.
Qed.

Lemma truthy_nonempty (s : jsstring) : truthy s = true ↔ s ≠ [].
Proof. by destruct s. Qed.

Lemma parsePlaceholders_elem (template n : jsstring) :
  n ∈ parsePlaceholders template ↔
  n ≠ [] ∧ ∃ capture, capture ∈ captures template ∧
                      n = trim (remove_braces capture).
Proof.
  rewrite parsePlaceholders_fold.
  destruct (set_add_fold
              (List.filter truthy
                 (List.map (fun capture => trim (remove_braces capture))
                           (captures template))) [] NoDup_nil_2)
    as (new & -> & _ & Hmem & _).
  cbn [app]. rewrite Hmem, list_elem_of_In, List.filter_In, List.in_map_iff.
  rewrite truthy_nonempty. split.
  - intros [[(capture & <- & Hin) Hne] _]. split; [done|].
    exists capture. by rewrite list_elem_of_In.
  - intros [Hne (capture & Hin & ->)]. split; [|apply not_elem_of_nil].
    split; [|done]. exists capture. by rewrite <- list_elem_of_In.
Qed.

Lemma parsePlaceholders_names (template n : jsstring) :
  n ∈ parsePlaceholders template → n ≠ [] ∧ (lbrace ∉ n) ∧ (rbrace ∉ n).
Proof.
  intros (Hne & capture & _ & ->)%parsePlaceholders_elem.
  split; [done|]. destruct (remove_braces_free capture) as [Hl Hr].
  split; intros H%elem_of_trim; done.
Qed.

Lemma filled_message_is_final_core (inherited_text : jsstring → jsstring)
    (template : jsstring) (values : gmap jsstring jsstring) :
  nested_free template →
  (∀ n, n ∈ parsePlaceholders template → is_Some (values !! n)) →
  (∀ k v, values !! k = Some v → lbrace ∉ v) →
  is_Some (match_run Idle (mergeTemplateContent inherited_text template values)).
Proof.
  intros Hfree Hall Hvalues.
  apply merge_match; [done| |by left].
  apply Forall_forall. intros capture Hin. split.
  - by apply (proj1 (Forall_forall _ _) Hfree).
  - intros Hkey. apply Hall, parsePlaceholders_elem. split; [done|].
    exists capture. split; [done|]. f_equal. symmetry.
    apply remove_braces_id.
    + by apply (proj1 (Forall_forall _ _) Hfree).
    + by apply (proj1 (Forall_forall _ _) (captures_ok template)).
Qed.

(** C3, as the code has it.  Take a body in which no token has a [{]
    between its braces, and a mapping that has an entry for every extracted
    name and whose values contain no [{].  Then the merged output has no
    token left: the expression of the placeholders matches nowhere in it, so
    it contains no [{], capture, [}] for any non-empty capture without [}],
    in particular neither the token of an extracted name nor a padded form
    of it, and the extractor finds none of the extracted names in it. *)
Theorem merge_leaves_no_extracted_token (inherited_text : jsstring → jsstring)
    (template : jsstring) (values : gmap jsstring jsstring) :
  nested_free template →
  (∀ n, n ∈ parsePlaceholders template → is_Some (values !! n)) →
  (∀ k v, values !! k = Some v → lbrace ∉ v) →
  let merged := mergeTemplateContent inherited_text template values in
  captures merged = [] ∧
  (∀ capture, capture ≠ [] → rbrace ∉ capture →
              ¬ contains merged (token_of capture)) ∧
  (∀ n, n ∈ parsePlaceholders template →
        ¬ contains merged (token_of n) ∧ n ∉ parsePlaceholders merged).
Proof.
  intros Hfree Hall Hvalues merged.
  pose proof (filled_message_is_final_core inherited_text template values
                Hfree Hall Hvalues) as Hrun.
  fold merged in Hrun.
  assert (Hcaps : captures merged = []) by by apply (match_run_no_captures _ Idle).
  assert (Hnone : ∀ capture, capture ≠ [] → rbrace ∉ capture →
                             ¬ contains merged (token_of capture)).
  { intros capture Hne Hr Hcontains.
    rewrite (match_run_contains Idle merged capture) in Hrun by done.
    by destruct Hrun. }
  split_and!; [done | done |].
  intros n Hn. apply parsePlaceholders_names in Hn as (Hne & _ & Hr).
  split; [by apply Hnone|].
  rewrite parsePlaceholders_fold, Hcaps. apply not_elem_of_nil.
Qed.

Lemma merge_leaves_no_extracted_token_witness :
  let template := js "Hi {a} and { a }!" in
  let values : gmap jsstring jsstring := {[ js "a" := js "x}" ]} in
  parsePlaceholders template = [js "a"] ∧
  mergeTemplateContent sample_inherited_text template values
  = js "Hi x} and x}!" ∧
  captures (mergeTemplateContent sample_inherited_text template values) = [].
Proof.
  cbv zeta. split; [by vm_compute|]. split; [by vm_compute|].
  apply (merge_leaves_no_extracted_token sample_inherited_text
           (js "Hi {a} and { a }!") {[ js "a" := js "x}" ]}).
  - unfold nested_free. vm_compute captures.
    repeat constructor; intros H; repeat (apply elem_of_cons in H as [H|H]);
      solve [discriminate H | by apply elem_of_nil in H].
  - vm_compute parsePlaceholders. intros n ->%list_elem_of_singleton.
    exists (js "x}"). by vm_compute.
  - intros k v [_ <-]%lookup_singleton_Some. vm_compute.
    intros H; repeat (apply elem_of_cons in H as [H|H]);
      solve [discriminate H | by apply elem_of_nil in H].
Defined.

(** C3 fails as stated, in two ways.  A value may itself spell a token: the
    body [{a}] merged with [a ↦ {a}] is [{a}].  And a nested brace is
    extracted under one name and merged under another: [{{x}}] declares [x],
    the merger looks up [{x], and with [x ↦ v] the output still contains
    [{x}]. *)
Lemma merge_can_leave_extracted_token :
  (parsePlaceholders (js "{a}") = [js "a"] ∧
   ({[ js "a" := js "{a}" ]} : gmap jsstring jsstring) !! js "a"
     = Some (js "{a}") ∧
   contains (mergeTemplateContent sample_inherited_text (js "{a}")
               {[ js "a" := js "{a}" ]})
            (token_of (js "a"))) ∧
  (parsePlaceholders (js "{{x}}") = [js "x"] ∧
   ({[ js "x" := js "v" ]} : gmap jsstring jsstring) !! js "x"
     = Some (js "v") ∧
   contains (mergeTemplateContent sample_inherited_text (js "{{x}}")
               {[ js "x" := js "v" ]})
            (token_of (js "x"))).
Proof.
  split_and!; try by vm_compute.
  - exists [], []. by vm_compute.
  - exists (js "{"), (js "}"). by vm_compute.
Qed.

(** ** The scenario of the seed workspace *)

Example compose_approve_publish :
  let tpl := sample_template (js "t1") 3 in
  let s0 := mkState [tpl; sample_template (js "t2") 5] [] [] in
  let c := mkComposer (js "t1")
             {[ js "feature_name" := js "Flow";
                js "feature_summary" := js "one queue" ]}
             None [Twitter] (js "") (js "") (js "") in
  let s1 := composePost sample_inherited_text s0 c (js "p1") (js "e1")
              (js "2024-01-02") (js "2024-01-02") in
  let s2 := handleApprove s1 (js "p1") (js "e2") (js "2024-01-03") in
  let s3 := handlePublish s2 (js "p1") (js "e3") (js "2024-01-04") in
  (p_status <$> find_post (js "p1") (posts s1)) = Some pending ∧
  (p_finalMessage <$> find_post (js "p1") (posts s1))
    = Some (js "Meet Flow: one queue.") ∧
  usage_of (js "t1") s1 = Some 4 ∧
  (p_status <$> find_post (js "p1") (posts s3)) = Some published ∧
  (p_approvedAt <$> find_post (js "p1") (posts s3))
    = Some (Some (js "2024-01-03")) ∧
  (p_publishedAt <$> find_post (js "p1") (posts s3))
    = Some (Some (js "2024-01-04")) ∧
  length (activity s3) = 3%nat.
Proof. vm_compute. repeat split. Qed.

(** What the composer hands over is what [offered] asks of a new post: its
    identifier is the one just drawn and its status is [pending]. *)
Lemma submit_pending (inherited_text : jsstring → jsstring)
    (ts : list Template) (c : ComposerState)
    (newId now : jsstring) (post : ScheduledPost) :
  submit inherited_text ts c newId now = Some post →
  p_id post = newId ∧ p_status post = pending ∧
  p_templateId post = c_templateId c ∧
  ∃ tpl, find_template (c_templateId c) ts = Some tpl ∧
         p_templateName post = t_name tpl ∧
         p_finalMessage post
         = mergeTemplateContent inherited_text (t_content tpl) (c_values c).
Proof.
  unfold submit. destruct (find_template (c_templateId c) ts) as [tpl|] eqn:E;
    [|done].
  intros [= <-]. cbn. apply find_template_id in E as [Hid _].
  split_and!; try done. by exists tpl.
Qed.

(** * Further properties *)

(** ** Trimming and the comma-separated fields *)

Lemma trimStart_split (s : jsstring) :
  ∃ ws, s = ws ++ trimStart s ∧ Forall (fun c => is_space c = true) ws.
Proof.
  induction s as [|c s (ws & Hs & Hws)]; [by exists []|]. cbn.
  destruct (is_space c) eqn:E.
  - exists (c :: ws). split; [by rewrite Hs at 1 | by constructor].
  - by exists [].
Qed.

Lemma trimStart_fixed (s : jsstring) :
  (∀ c t, s = c :: t → is_space c = false) → trimStart s = s.
Proof.
  destruct s as [|c t]; [done|]. intros H. cbn. by rewrite (H c t eq_refl).
Qed.

Lemma trimStart_head (s : jsstring) (c : N) (t : jsstring) :
  trimStart s = c :: t → is_space c = false.
Proof.
  induction s as [|x s IH]; cbn; [done|].
  destruct (is_space x) eqn:E; [done|]. by intros [= <- <-].
Qed.

Lemma trimStart_idem (s : jsstring) : trimStart (trimStart s) = trimStart s.
Proof. apply trimStart_fixed. intros c t. apply trimStart_head. Qed.

Lemma trimEnd_split (s : jsstring) : ∃ ws, s = trimEnd s ++ ws.
Proof.
  unfold trimEnd. destruct (trimStart_split (rev s)) as (ws & Hs & _).
  exists (rev ws). rewrite <- rev_app_distr, <- Hs. by rewrite rev_involutive.
Qed.

Lemma trim_idem (s : jsstring) : trim (trim s) = trim s.
Proof.
  unfold trim at 1.
  assert (Hstart : trimStart (trim s) = trim s).
  { apply trimStart_fixed. intros c t Hct. unfold trim in Hct.
    destruct (trimEnd_split (trimStart s)) as (ws & Hws).
    rewrite Hct in Hws. by apply (trimStart_head s c (t ++ ws)). }
  rewrite Hstart. unfold trim, trimEnd.
  by rewrite rev_involutive, trimStart_idem.
Qed.

Lemma trim_space (c : N) (s : jsstring) :
  is_space c = true → trim (c :: s) = trim s.
Proof. intros H. unfold trim. cbn. by rewrite H. Qed.

Lemma clean_trim (s : jsstring) : truthy (trim s) = true → clean (trim s).
Proof. intros H. split; [by apply truthy_nonempty | apply trim_idem]. Qed.

Lemma split_comma_nonempty (s : jsstring) : split_comma s ≠ [].
Proof.
  induction s as [|c s IH]; cbn; [done|].
  destruct (c =? comma)%N; [done|]. by destruct (split_comma s).
Qed.

Lemma split_comma_free (s : jsstring) :
  Forall (fun part => comma ∉ part) (split_comma s).
Proof.
  induction s as [|c s IH]; cbn.
  - constructor; [apply not_elem_of_nil | constructor].
  - destruct (N.eqb_spec c comma) as [->|Hc].
    + constructor; [apply not_elem_of_nil | done].
    + destruct (split_comma s) as [|h r]; inversion IH; subst.
      * constructor; [|done]. rewrite not_elem_of_cons.
        split; [congruence | apply not_elem_of_nil].
      * constructor; [|done]. rewrite not_elem_of_cons.
        split; [congruence | done].
Qed.

Lemma split_comma_app (a b : jsstring) :
  comma ∉ a → split_comma (a ++ comma :: b) = a :: split_comma b.
Proof.
  induction a as [|c a IH]; cbn; [done|]. intros [Hc Ha]%not_elem_of_cons.
  destruct (N.eqb_spec c comma); [done|]. by rewrite IH.
Qed.

Lemma split_comma_single (a : jsstring) : comma ∉ a → split_comma a = [a].
Proof.
  induction a as [|c a IH]; cbn; [done|]. intros [Hc Ha]%not_elem_of_cons.
  destruct (N.eqb_spec c comma); [done|]. by rewrite IH.
Qed.

Lemma split_trim_filter_space (c : N) (s : jsstring) :
  is_space c = true → c ≠ comma →
  split_trim_filter (c :: s) = split_trim_filter s.
Proof.
  intros Hsp Hc. unfold split_trim_filter. cbn [split_comma].
  destruct (N.eqb_spec c comma); [done|].
  pose proof (split_comma_nonempty s) as Hne.
  destruct (split_comma s) as [|h r]; [done|]. cbn [List.map].
  by rewrite trim_space.
Qed.

Lemma split_trim_filter_items (raw : jsstring) :
  Forall clean_tag (split_trim_filter raw).
Proof.
  unfold split_trim_filter. apply Forall_forall. intros x Hx.
  apply list_elem_of_In, List.filter_In in Hx as [Hx Htruthy].
  apply List.in_map_iff in Hx as (part & <- & Hpart).
  split; [by apply clean_trim|].
  intros Hin%elem_of_trim.
  by apply (proj1 (Forall_forall _ _) (split_comma_free raw) part);
    [apply list_elem_of_In|].
Qed.

(** X1. What [split(",").map(trim).filter(Boolean)] returns, for the tags of
    a template and the reviewers of a post: every item is non-empty, is
    trimmed and has no comma; blank input gives no item at all. *)
Theorem split_trim_filter_clean (raw : jsstring) :
  Forall clean_tag (split_trim_filter raw) ∧
  (trim raw = [] → comma ∉ raw → split_trim_filter raw = []).
Proof.
  split; [apply split_trim_filter_items|].
  intros Hblank Hfree. unfold split_trim_filter.
  rewrite split_comma_single by done. cbn. by rewrite Hblank.
Qed.

Lemma split_trim_filter_clean_witness :
  split_trim_filter (js "  ") = [] ∧
  split_trim_filter (js " #a, ,#b ,") = [js "#a"; js "#b"].
Proof.
  split; [|by vm_compute].
  apply (split_trim_filter_clean (js "  ")); [by vm_compute|].
  vm_compute. intros H; repeat (apply elem_of_cons in H as [H|H]);
    solve [discriminate H | by apply elem_of_nil in H].
Defined.

Lemma join_cons (sep p q : jsstring) (rest : list jsstring) :
  join sep (p :: q :: rest) = p ++ sep ++ join sep (q :: rest).
Proof. reflexivity. Qed.

Lemma join_split_tags (tags : list jsstring) :
  Forall clean_tag tags →
  split_trim_filter (join (js ", ") tags) = tags.
Proof.
  induction tags as [|t tags IH]; [done|].
  intros [[[Hne Htrim] Hfree] Htags]%Forall_cons.
  assert (Ht : truthy t = true) by by apply truthy_nonempty.
  destruct tags as [|t' tags].
  - cbn [join]. unfold split_trim_filter.
    rewrite split_comma_single by done. cbn. by rewrite Htrim, Ht.
  - rewrite join_cons. change (js ", ") with (comma :: [32%N]).
    cbn [app]. unfold split_trim_filter.
    rewrite split_comma_app by done. cbn [List.map List.filter].
    rewrite Htrim, Ht. f_equal.
    fold (split_trim_filter (32%N :: join [comma; 32%N] (t' :: tags))).
    rewrite (split_trim_filter_space 32%N) by done. by apply IH.
Qed.

(** X2. The tags survive the way through the form: joining clean tags with
    [", "], as [startEditing] does, and splitting the text again, as
    [handleSubmit] does, gives the tags back. *)
Theorem tags_round_trip (tags : list jsstring) :
  Forall clean_tag tags →
  split_trim_filter (join (js ", ") tags) = tags.
Proof. apply join_split_tags. Qed.

Lemma tags_round_trip_witness :
  split_trim_filter (join (js ", ") [js "#LaunchDay"; js "#SaaS"])
  = [js "#LaunchDay"; js "#SaaS"].
Proof.
  apply tags_round_trip.
  repeat constructor; try discriminate;
    vm_compute; intros H; repeat (apply elem_of_cons in H as [H|H]);
    solve [discriminate H | by apply elem_of_nil in H].
Defined.

(** ** The template form *)

Lemma existsb_template_ids (id : jsstring) (ts : list Template) :
  List.existsb (fun item => same_id (t_id item) id) ts = false ↔
  id ∉ List.map t_id ts.
Proof.
  induction ts as [|t ts IH]; cbn.
  - split; [intros _; apply not_elem_of_nil | done].
  - rewrite not_elem_of_cons, orb_false_iff, IH, same_id_false.
    split; intros [? ?]; split; congruence.
Qed.

(** X3. The template form rejects a name or a content that is blank after
    trimming: nothing is saved and nothing is logged. *)
Theorem save_rejects_blank (s : AppState) (form : TemplateFormState)
    (newId entryId now : jsstring) :
  trim (f_name form) = [] ∨ trim (f_content form) = [] →
  handleSubmit (templates s) form newId now = None ∧
  saveTemplate s form newId entryId now = s.
Proof.
  intros H. unfold saveTemplate.
  assert (Hnone : handleSubmit (templates s) form newId now = None).
  { unfold handleSubmit. destruct H as [-> | ->]; cbn; [done|].
    by rewrite orb_true_r. }
  by rewrite Hnone.
Qed.

Lemma save_rejects_blank_witness :
  let s := mkState [sample_template (js "t1") 3] [] [] in
  saveTemplate s (mkForm None (js "  ") (js "d") (js "body") [Twitter] (js ""))
    (js "n1") (js "e1") sample_time = s.
Proof.
  cbv zeta.
  apply (save_rejects_blank (mkState [sample_template (js "t1") 3] [] [])).
  left. reflexivity.
Defined.

(** X4. Saving a form without identifier under a fresh identifier creates a
    template: it is put in front of the others, which are unchanged, with
    the fresh identifier, usage count 0 and the time of the save as both
    [createdAt] and [updatedAt]; the posts are unchanged and one "New
    template" entry is logged. *)
Theorem save_creates_template (s : AppState) (form : TemplateFormState)
    (newId entryId now : jsstring) :
  f_id form = None →
  trim (f_name form) ≠ [] → trim (f_content form) ≠ [] →
  newId ∉ List.map t_id (templates s) →
  let s' := saveTemplate s form newId entryId now in
  ∃ created,
    templates s' = created :: templates s ∧
    posts s' = posts s ∧
    t_id created = newId ∧ t_usageCount created = 0 ∧
    t_createdAt created = now ∧ t_updatedAt created = now ∧
    t_name created = trim (f_name form) ∧
    t_content created = trim (f_content form) ∧
    activity s'
    = appendActivity (activity s)
        (mkEntry entryId now (js "New template: " ++ trim (f_name form))
           (Some (js "Platforms: " ++ join_platforms (f_platforms form)))
           cat_template).
Proof.
  intros Hid Hname Hcontent Hfresh s'. subst s'.
  unfold saveTemplate, handleSubmit. rewrite Hid.
  apply truthy_nonempty in Hname, Hcontent. rewrite Hname, Hcontent.
  cbn [negb orb default truthy_opt mbind option_bind fmap option_fmap option_map].
  unfold upsertTemplate. cbn [t_id t_name t_createdAt t_platforms templates].
  rewrite (proj2 (existsb_template_ids newId (templates s)) Hfresh).
  eexists. split_and!; reflexivity.
Qed.

Lemma save_creates_template_witness :
  let s := mkState [sample_template (js "t1") 3] [] [] in
  ∃ created,
    templates (saveTemplate s (sample_form None) (js "n1") (js "e1") sample_time)
    = created :: templates s ∧ t_usageCount created = 0.
Proof.
  cbv zeta.
  destruct (save_creates_template (mkState [sample_template (js "t1") 3] [] [])
              (sample_form None) (js "n1") (js "e1") sample_time)
    as (created & H1 & _ & _ & H2 & _).
  - reflexivity.
  - by vm_compute.
  - by vm_compute.
  - vm_compute. intros H%list_elem_of_singleton. discriminate H.
  - exists created. by split.
Defined.

(** X5. Whatever the form holds, the template it hands over is in stored
    form: name, description and content are trimmed and not empty, and the
    tags are trimmed, not empty and without comma. *)
Theorem handleSubmit_stored_form (ts : list Template)
    (form : TemplateFormState) (newId now : jsstring) (payload : Template) :
  handleSubmit ts form newId now = Some payload →
  stored_form payload ∧ t_updatedAt payload = now ∧
  t_platforms payload = f_platforms form.
Proof.
  unfold handleSubmit.
  destruct (truthy (trim (f_name form))) eqn:Hname; [|done].
  destruct (truthy (trim (f_content form))) eqn:Hcontent; [|done].
  cbn [negb orb]. intros [= <-]. split; [|done].
  unfold stored_form. cbn. split_and!.
  - by apply clean_trim.
  - destruct (truthy (trim (f_description form))) eqn:Hd.
    + by apply clean_trim.
    + split; [done | by vm_compute].
  - by apply clean_trim.
  - apply split_trim_filter_items.
Qed.

Lemma handleSubmit_stored_form_witness :
  ∃ payload,
    handleSubmit [] (sample_form None) (js "n1") sample_time = Some payload ∧
    stored_form payload.
Proof.
  eexists. split; [reflexivity|].
  apply (handleSubmit_stored_form [] (sample_form None) (js "n1") sample_time).
  reflexivity.
Defined.

(** X6. Opening a stored template in the form and saving it untouched
    changes nothing but [updatedAt]: identifier, name, description,
    platforms, content, tags, [createdAt] and usage count come back as they
    were. *)
Theorem edit_without_change (ts : list Template) (tpl : Template)
    (newId now : jsstring) :
  find_template (t_id tpl) ts = Some tpl →
  t_id tpl ≠ [] →
  stored_form tpl →
  handleSubmit ts (startEditing tpl) newId now = Some (with_updatedAt tpl now).
Proof.
  intros Hfind Hid (Hname & Hdesc & Hcontent & Htags).
  unfold handleSubmit, startEditing. cbn [f_id f_name f_description f_content
    f_platforms f_tags].
  destruct Hname as [Hn1 Hn2], Hdesc as [Hd1 Hd2], Hcontent as [Hc1 Hc2].
  rewrite Hn2, Hd2, Hc2, join_split_tags by done.
  apply truthy_nonempty in Hn1, Hd1, Hc1, Hid.
  rewrite Hn1, Hd1, Hc1. cbn [negb orb default truthy_opt mbind option_bind].
  rewrite Hid, Hfind. reflexivity.
Qed.

Lemma edit_without_change_witness :
  let tpl := sample_template (js "t1") 3 in
  handleSubmit [sample_template (js "t0") 1; tpl] (startEditing tpl)
    (js "n1") sample_time
  = Some (with_updatedAt tpl sample_time).
Proof.
  cbv zeta. apply edit_without_change.
  - reflexivity.
  - discriminate.
  - unfold stored_form, clean. cbn [sample_template t_name t_description
      t_content t_tags].
    split_and!; try discriminate; try (by vm_compute).
    repeat constructor; try discriminate; try (by vm_compute).
    vm_compute. intros H; repeat (apply elem_of_cons in H as [H|H]);
      solve [discriminate H | by apply elem_of_nil in H].
Defined.

(** ** The template registry *)

Lemma find_template_filter_same (id : jsstring) (ts : list Template) :
  find_template id
    (List.filter (fun template => negb (same_id (t_id template) id)) ts)
  = None.
Proof.
  unfold find_template. induction ts as [|t ts IH]; cbn; [done|].
  destruct (same_id (t_id t) id) eqn:E; cbn; [done|]. by rewrite E.
Qed.

Lemma filter_template_absent (id : jsstring) (ts : list Template) :
  find_template id ts = None →
  List.filter (fun template => negb (same_id (t_id template) id)) ts = ts.
Proof.
  unfold find_template. induction ts as [|t ts IH]; cbn; [done|].
  destruct (same_id (t_id t) id); cbn; [done|]. intros H. by rewrite IH.
Qed.

(** X7. Removing a template removes every template with that identifier and
    nothing else: the identifier is no longer found, every other identifier is
    found as before, the posts are untouched, and removing an identifier that
    no template carries leaves the templates as they are (an entry is logged
    all the same). *)
Theorem removeTemplate_removes (s : AppState) (id newId now : jsstring) :
  let s' := removeTemplate s id newId now in
  find_template id (templates s') = None ∧
  (∀ id', id' ≠ id →
     find_template id' (templates s') = find_template id' (templates s)) ∧
  (find_template id (templates s) = None → templates s' = templates s) ∧
  posts s' = posts s ∧
  activity s'
  = appendActivity (activity s)
      (mkEntry newId now (js "Template archived")
         (Some (js "Removed from library")) cat_template).
Proof.
  cbn. split_and!; try done.
  - apply find_template_filter_same.
  - intros id' Hne. by apply find_template_filter_other.
  - apply filter_template_absent.
Qed.

Lemma removeTemplate_removes_witness :
  let s := mkState [sample_template (js "t1") 3; sample_template (js "t2") 5]
             [] [] in
  find_template (js "t2")
    (templates (removeTemplate s (js "t1") (js "e1") sample_time))
  = find_template (js "t2") (templates s).
Proof.
  cbv zeta.
  apply (removeTemplate_removes
           (mkState [sample_template (js "t1") 3; sample_template (js "t2") 5]
              [] [])
           (js "t1") (js "e1") sample_time).
  discriminate.
Defined.

Lemma template_ids_filter (f : Template → bool) (ts : list Template)
    (x : jsstring) :
  x ∈ List.map t_id (List.filter f ts) → x ∈ List.map t_id ts.
Proof.
  induction ts as [|a ts IH]; cbn; [done|].
  destruct (f a); cbn; rewrite ?elem_of_cons; intuition.
Qed.

Lemma NoDup_template_ids_filter (f : Template → bool) (ts : list Template) :
  NoDup (List.map t_id ts) → NoDup (List.map t_id (List.filter f ts)).
Proof.
  induction ts as [|a ts IH]; cbn; [done|]. intros [Ha Hnd]%NoDup_cons.
  destruct (f a); cbn; [|by apply IH].
  apply NoDup_cons. split; [|by apply IH].
  intros Hin. by apply Ha, (template_ids_filter f).
Qed.

Lemma step_template_ids (formatDateTime : option jsstring → jsstring)
    (s : AppState) (o : op) :
  NoDup (List.map t_id (templates s)) →
  NoDup (List.map t_id (templates (step formatDateTime s o))).
Proof.
  intros Hnd. destruct o; cbn [step].
  - unfold upsertTemplate. cbn [templates].
    destruct (List.existsb _ _) eqn:E.
    + rewrite List.map_map.
      erewrite List.map_ext; [exact Hnd|]. intros item. cbn.
      destruct (same_id (t_id item) (t_id template)) eqn:Eid; [|done].
      by apply same_id_true in Eid.
    + cbn. apply NoDup_cons. split; [|done].
      by apply existsb_template_ids.
  - by apply NoDup_template_ids_filter.
  - cbn [addPost templates]. rewrite List.map_map.
    erewrite List.map_ext; [exact Hnd|]. intros item. cbn.
    by destruct (same_id (t_id item) (p_templateId post)).
  - by rewrite (proj1 (handlers_keep_templates formatDateTime s id newId now)).
  - by rewrite (proj1 (proj2 (handlers_keep_templates formatDateTime s id newId now))).
  - by rewrite (proj2 (proj2 (handlers_keep_templates formatDateTime s id newId now))).
  - done.
Qed.

(** X8. The identifiers of the templates stay pairwise distinct under every
    operation, whatever is saved: [upsertTemplate] replaces in place when the
    identifier is there and inserts only when it is not. *)
Theorem template_ids_stay_distinct (formatDateTime : option jsstring → jsstring)
    (s : AppState) (ops : list op) :
  NoDup (List.map t_id (templates s)) →
  NoDup (List.map t_id (templates (run formatDateTime s ops))).
Proof.
  revert s. induction ops as [|o ops IH]; intros s Hnd; [done|].
  cbn. apply IH. by apply step_template_ids.
Qed.

Lemma template_ids_stay_distinct_witness :
  let s := mkState [sample_template (js "t1") 3] [] [] in
  NoDup (List.map t_id (templates
    (run (fun _ => js "No schedule") s
       [OpUpsert (sample_template (js "t1") 0) (js "e1");
        OpUpsert (sample_template (js "t2") 0) (js "e2");
        OpUpsert (sample_template (js "t2") 7) (js "e3")]))).
Proof.
  cbv zeta. apply template_ids_stay_distinct. cbn. apply NoDup_singleton.
Defined.

(** ** The journal under the operations *)

Lemma step_activity (formatDateTime : option jsstring → jsstring)
    (s : AppState) (o : op) :
  (hits s o →
   ∃ e, activity (step formatDateTime s o) = appendActivity (activity s) e ∧
        a_category e = op_category o ∧ a_id e = op_entry_id o) ∧
  (¬ hits s o → step formatDateTime s o = s).
Proof.
  unfold hits. destruct o; cbn [step op_transition op_category op_entry_id].
  - split; [intros _|tauto]. unfold upsertTemplate. cbn [activity].
    destruct (List.existsb _ _); by eexists.
  - split; [intros _|tauto]. by eexists.
  - split; [intros _|tauto]. by eexists.
  - unfold handleApprove. destruct (find_post id (posts s)) eqn:E.
    + split; [intros _; by eexists|]. intros H. destruct H. by eexists.
    + split; [by intros [? ?]|]. intros _. by apply setPostStatus_absent.
  - unfold handleSchedule. destruct (find_post id (posts s)) eqn:E.
    + split; [intros _; by eexists|]. intros H. destruct H. by eexists.
    + split; [by intros [? ?]|]. intros _. by apply setPostStatus_absent.
  - unfold handlePublish. destruct (find_post id (posts s)) eqn:E.
    + split; [intros _; by eexists|]. intros H. destruct H. by eexists.
    + split; [by intros [? ?]|]. intros _. by apply setPostStatus_absent.
  - split; [intros _|tauto]. by eexists.
Qed.

(** X9. Every operation logs exactly one entry, of the category of the
    operation and under the identifier drawn for it, in front of the journal;
    the one exception is a status button for an identifier that no post
    carries, which changes nothing at all. *)
Theorem one_entry_per_operation (formatDateTime : option jsstring → jsstring)
    (s : AppState) (o : op) :
  (hits s o →
   ∃ e, activity (step formatDateTime s o) = appendActivity (activity s) e ∧
        head (activity (step formatDateTime s o)) = Some e ∧
        a_category e = op_category o ∧ a_id e = op_entry_id o) ∧
  (¬ hits s o → step formatDateTime s o = s).
Proof.
  destruct (step_activity formatDateTime s o) as [Hhit Hmiss].
  split; [|done]. intros H. destruct (Hhit H) as (e & He & Hcat & Hid).
  exists e. split_and!; try done. by rewrite He.
Qed.

Lemma one_entry_per_operation_witness :
  let s := mkState [] [sample_post (js "p1") pending None] [] in
  ∃ e, activity (step (fun _ => js "No schedule") s
                   (OpApprove (js "p1") (js "e1") sample_time))
       = appendActivity (activity s) e ∧ a_id e = js "e1".
Proof.
  cbv zeta.
  destruct (proj1 (one_entry_per_operation (fun _ => js "No schedule")
              (mkState [] [sample_post (js "p1") pending None] [])
              (OpApprove (js "p1") (js "e1") sample_time)))
    as (e & He & _ & _ & Hid).
  - by eexists.
  - by exists e.
Defined.

Lemma hits_or_not (s : AppState) (o : op) : hits s o ∨ ¬ hits s o.
Proof.
  unfold hits. destruct (op_transition o) as [id|]; [|by left].
  destruct (find_post id (posts s)); [left; by eexists | right; by intros [? ?]].
Qed.

(** X10. A journal of at most 40 entries stays within 40 entries over every
    run of operations. *)
Theorem journal_stays_bounded (formatDateTime : option jsstring → jsstring)
    (s : AppState) (ops : list op) :
  (length (activity s) ≤ 40)%nat →
  (length (activity (run formatDateTime s ops)) ≤ 40)%nat.
Proof.
  revert s. induction ops as [|o ops IH]; intros s Hlen; [done|].
  cbn. apply IH.
  destruct (step_activity formatDateTime s o) as [Hhit Hmiss].
  destruct (hits_or_not s o) as [H|H].
  - destruct (Hhit H) as (e & -> & _). rewrite appendActivity_length. lia.
  - by rewrite (Hmiss H).
Qed.

Lemma journal_stays_bounded_witness :
  (length (activity (run (fun _ => js "No schedule") full_journal_state
     [OpDeletePost (js "ghost") (js "e1") sample_time;
      OpUpsert (sample_template (js "t1") 0) (js "e2")])) ≤ 40)%nat.
Proof.
  apply journal_stays_bounded. cbn. lia.
Defined.

(** ** The posts under the operations *)

Lemma find_post_filter_same (id : jsstring) (ps : list ScheduledPost) :
  find_post id (List.filter (fun post => negb (same_id (p_id post) id)) ps)
  = None.
Proof.
  unfold find_post. induction ps as [|p ps IH]; cbn; [done|].
  destruct (same_id (p_id p) id) eqn:E; cbn; [done|]. by rewrite E.
Qed.

(** X11. Deleting a post removes every post with that identifier and nothing
    else: the identifier is no longer found, every other post is found as
    before, and the templates, with their usage counts, are untouched. *)
Theorem deletePost_removes (s : AppState) (id newId now : jsstring) :
  let s' := deletePost s id newId now in
  find_post id (posts s') = None ∧
  (∀ id', id' ≠ id → find_post id' (posts s') = find_post id' (posts s)) ∧
  templates s' = templates s.
Proof.
  cbn. split_and!; try done.
  - apply find_post_filter_same.
  - intros id' Hne. by apply find_post_filter_other.
Qed.

Lemma deletePost_removes_witness :
  let s := mkState [] [sample_post (js "p1") approved None;
                       sample_post (js "p2") pending None] [] in
  find_post (js "p2") (posts (deletePost s (js "p1") (js "e1") sample_time))
  = find_post (js "p2") (posts s).
Proof.
  cbv zeta.
  apply (deletePost_removes
           (mkState [] [sample_post (js "p1") approved None;
                        sample_post (js "p2") pending None] [])
           (js "p1") (js "e1") sample_time).
  discriminate.
Defined.

Lemma setPostStatus_posts (s : AppState) (id : jsstring) (st : PostStatus)
    (now : jsstring) :
  posts (setPostStatus s id st now)
  = List.map (update_post id (fun post =>
                match st with
                | approved => with_approved post st now
                | published => with_published post st now
                | _ => with_status post st
                end)) (posts s).
Proof.
  unfold setPostStatus. cbn [posts]. apply List.map_ext. intros p.
  unfold update_post. destruct (same_id (p_id p) id); cbn; [by destruct st|done].
Qed.

(** The posts after a status button: the old posts, the one with the
    identifier rewritten by a function that keeps its content. *)
Lemma handlers_update (formatDateTime : option jsstring → jsstring)
    (s : AppState) (o : op) (id : jsstring) :
  op_transition o = Some id →
  ∃ g, posts (step formatDateTime s o) = List.map (update_post id g) (posts s) ∧
       ∀ p, content (g p) = content p.
Proof.
  destruct o; cbn [op_transition step]; try done; intros [= ->].
  - unfold handleApprove. destruct (find_post id (posts s)).
    + eexists. split; [reflexivity|done].
    + eexists. split; [apply setPostStatus_posts|done].
  - unfold handleSchedule. destruct (find_post id (posts s)).
    + eexists. split; [reflexivity|done].
    + eexists. split; [apply setPostStatus_posts|done].
  - unfold handlePublish. destruct (find_post id (posts s)).
    + eexists. split; [reflexivity|done].
    + eexists. split; [apply setPostStatus_posts|done].
Qed.

Lemma content_id (p q : ScheduledPost) : content p = content q → p_id p = p_id q.
Proof. unfold content, snapshot. by intros [= ? _]. Qed.

Lemma step_keeps_content (formatDateTime : option jsstring → jsstring)
    (s : AppState) (o : op) (i : jsstring) (p : ScheduledPost) :
  leaves_post i o → find_post i (posts s) = Some p →
  ∃ p', find_post i (posts (step formatDateTime s o)) = Some p' ∧
        content p' = content p.
Proof.
  intros Hleave Hp.
  destruct (op_transition o) as [id|] eqn:Eo.
  - destruct (handlers_update formatDateTime s o id Eo) as (g & -> & Hg).
    rewrite find_post_map, Hp.
    + eexists. split; [reflexivity|]. unfold update_post.
      by destruct (same_id (p_id p) id).
    + intros x. unfold update_post.
      destruct (same_id (p_id x) id); [|done]. by apply content_id.
  - destruct o; cbn [op_transition] in Eo; try done;
      cbn [step leaves_post] in *.
    + by exists p.
    + by exists p.
    + exists p. split; [|done]. unfold find_post in *. cbn.
      by rewrite (proj2 (same_id_false (p_id post) i)).
    + exists p. split; [|done]. cbn [deletePost posts].
      by rewrite find_post_filter_other.
Qed.

(** X12. A post is frozen for life: over any run of operations, offered by
    the page or not, that neither deletes the post nor adds another under its
    identifier, the post is still found and its template reference, template
    name, values, final message, creation time, platforms, schedule, notes,
    media link and reviewers are what they were; saving, changing or deleting
    its template does not reach it. *)
Theorem post_content_frozen (formatDateTime : option jsstring → jsstring)
    (s : AppState) (ops : list op) (i : jsstring) (p : ScheduledPost) :
  find_post i (posts s) = Some p →
  Forall (leaves_post i) ops →
  ∃ p', find_post i (posts (run formatDateTime s ops)) = Some p' ∧
        content p' = content p.
Proof.
  revert s p. induction ops as [|o ops IH]; intros s p Hp Hall.
  - by exists p.
  - apply Forall_cons in Hall as [Ho Hall].
    destruct (step_keeps_content formatDateTime s o i p Ho Hp) as (p1 & Hp1 & Hc1).
    destruct (IH _ p1 Hp1 Hall) as (p' & Hp' & Hc').
    exists p'. split; [done | congruence].
Qed.

Lemma post_content_frozen_witness :
  let s := mkState [sample_template (js "t1") 3]
             [sample_post (js "p1") pending None] [] in
  ∃ p', find_post (js "p1")
          (posts (run (fun _ => js "No schedule") s
             [OpUpsert (sample_template (js "t1") 9) (js "e1");
              OpPublish (js "p1") (js "e2") sample_time;
              OpRemoveTemplate (js "t1") (js "e3") sample_time;
              OpApprove (js "p1") (js "e4") sample_time])) = Some p' ∧
        content p' = content (sample_post (js "p1") pending None).
Proof.
  cbv zeta. apply post_content_frozen; [reflexivity|].
  repeat constructor.
Defined.

(** ** Progress of the workflow *)

Lemma update_keeps (Q : ScheduledPost → Prop) (ps : list ScheduledPost)
    (id : jsstring) (g : ScheduledPost → ScheduledPost) (post : ScheduledPost) :
  NoDup (List.map p_id ps) → find_post id ps = Some post →
  Forall Q ps → Q (g post) →
  Forall Q (List.map (update_post id g) ps).
Proof.
  intros Hnd Hfind Hall Hg. apply Forall_forall. intros y Hy.
  apply list_elem_of_In, List.in_map_iff in Hy as (x & <- & Hx).
  apply list_elem_of_In in Hx. unfold update_post.
  destruct (same_id (p_id x) id) eqn:E.
  - apply same_id_true in E. pose proof (find_post_elem ps x Hnd Hx) as Hx'.
    rewrite E, Hfind in Hx'. by injection Hx' as <-.
  - by apply (proj1 (Forall_forall _ _) Hall).
Qed.

Lemma offered_transition (formatDateTime : option jsstring → jsstring)
    (s : AppState) (o : op) (i : jsstring) :
  NoDup (List.map p_id (posts s)) → offered s o → op_transition o = Some i →
  ∃ post g,
    find_post i (posts s) = Some post ∧
    posts (step formatDateTime s o) = List.map (update_post i g) (posts s) ∧
    (∀ p, p_id (g p) = p_id p) ∧
    (rank (p_status post) < rank (p_status (g post)))%nat ∧
    (stamps_ok post → stamps_ok (g post)).
Proof.
  intros Hnd Hoff Ho.
  destruct o; cbn [op_transition] in Ho; try done; injection Ho as ->;
    cbn [offered step] in *; destruct Hoff as (post & Hin & <- & Hgate);
    pose proof (find_post_elem _ _ Hnd Hin) as Hfind; exists post.
  - apply status_eqb_eq in Hgate.
    exists (fun item => with_approved item approved now).
    unfold handleApprove. rewrite Hfind. split_and!; try done.
    all: first [ by (cbn; rewrite Hgate; cbn; lia)
               | by (intros _; split; cbn; [by eexists | done]) ].
  - apply andb_true_iff in Hgate as [Hgate _]. apply status_eqb_eq in Hgate.
    exists (fun item => with_status item scheduled).
    unfold handleSchedule. rewrite Hfind. split_and!; try done.
    all: first [ by (cbn; rewrite Hgate; cbn; lia)
               | by (intros [Ha _]; split; cbn; [|done]; intros _; apply Ha;
                     rewrite Hgate) ].
  - exists (fun item => with_published item published now).
    unfold handlePublish. rewrite Hfind. unfold offersPublish in Hgate.
    split_and!; try done.
    all: first [ by (cbn; destruct (p_status post); cbn in *; try done; lia)
               | by (intros [Ha _]; split; cbn; [|by eexists]; intros _;
                     apply Ha; destruct (p_status post)) ].
Qed.

(** X13. Under the approval queue every press of a status button moves its
    post strictly forward, so a post that is not deleted sees at most three of
    them in its life: over a run the page offers, the rank of the status at
    the start plus the number of presses on the post is at most the rank of
    the status at the end.  A published post is offered no status button. *)
Theorem transitions_bounded (formatDateTime : option jsstring → jsstring)
    (s : AppState) (ops : list op) (i : jsstring) (p : ScheduledPost) :
  queue_ok s →
  offered_run formatDateTime s ops →
  find_post i (posts s) = Some p →
  Forall (keeps_post i) ops →
  (∃ p', find_post i (posts (run formatDateTime s ops)) = Some p' ∧
         (rank (p_status p) + transitions_on i ops ≤ rank (p_status p'))%nat) ∧
  (transitions_on i ops ≤ 3)%nat ∧
  (p_status p = published →
   offersApprove p = false ∧ offersSchedule p = false ∧ offersPublish p = false).
Proof.
  intros Hok Hoff Hp Hkeep.
  assert (Hmain : ∃ p', find_post i (posts (run formatDateTime s ops)) = Some p' ∧
            (rank (p_status p) + transitions_on i ops ≤ rank (p_status p'))%nat).
  { revert s p Hok Hoff Hp Hkeep.
    induction ops as [|o ops IH]; intros s p Hok Hoff Hp Hkeep.
    - exists p. cbn. split; [done | lia].
    - destruct Hoff as [Ho Hoff]. apply Forall_cons in Hkeep as [Hk Hkeep].
      destruct (offered_step formatDateTime s o Hok Ho) as [Hok' Hstep].
      destruct (Hstep i p Hk Hp) as (p1 & Hp1 & Hr1 & _).
      destruct (IH _ p1 Hok' Hoff Hp1 Hkeep) as (p' & Hp' & Hr').
      exists p'. split; [done|].
      unfold transitions_on in *. cbn [List.filter].
      case_bool_decide as Ht; cbn [length]; [|lia].
      destruct Hok as [Hnd _].
      destruct (offered_transition formatDateTime s o i Hnd Ho Ht)
        as (post & g & Hfind & Hposts & Hg & Hlt & _).
      rewrite Hp in Hfind. injection Hfind as <-.
      rewrite Hposts, (find_post_updated g i (posts s) p Hg Hp) in Hp1.
      injection Hp1 as <-. lia. }
  split; [done|]. split.
  - destruct Hmain as (p' & _ & Hle).
    assert (rank (p_status p') ≤ 3)%nat by (destruct (p_status p'); cbn; lia).
    lia.
  - intros Hpub. unfold offersApprove, offersSchedule, offersPublish.
    by rewrite Hpub.
Qed.

Lemma transitions_bounded_witness :
  let s := mkState [] [sample_post (js "p1") pending (Some (js "2024-02-01T10:00"))] [] in
  let ops := [OpApprove (js "p1") (js "e1") sample_time;
              OpSchedule (js "p1") (js "e2") sample_time;
              OpPublish (js "p1") (js "e3") sample_time] in
  ∃ p', find_post (js "p1") (posts (run (fun _ => js "Feb 1") s ops)) = Some p' ∧
        (0 + 3 ≤ rank (p_status p'))%nat.
Proof.
  cbv zeta.
  apply (transitions_bounded (fun _ => js "Feb 1")
           (mkState [] [sample_post (js "p1") pending (Some (js "2024-02-01T10:00"))] [])
           [OpApprove (js "p1") (js "e1") sample_time;
            OpSchedule (js "p1") (js "e2") sample_time;
            OpPublish (js "p1") (js "e3") sample_time]
           (js "p1")
           (sample_post (js "p1") pending (Some (js "2024-02-01T10:00")))).
  - split; cbn.
    + apply NoDup_singleton.
    + apply Forall_singleton. intros H. discriminate H.
  - cbn. repeat split; eexists;
      (split; [apply list_elem_of_here | split; reflexivity]).
  - reflexivity.
  - repeat constructor.
Defined.

Lemma offered_step_stamps (formatDateTime : option jsstring → jsstring)
    (s : AppState) (o : op) :
  NoDup (List.map p_id (posts s)) → offered s o →
  Forall stamps_ok (posts s) →
  Forall stamps_ok (posts (step formatDateTime s o)).
Proof.
  intros Hnd Hoff Hall.
  destruct (op_transition o) as [i|] eqn:Eo.
  - destruct (offered_transition formatDateTime s o i Hnd Hoff Eo)
      as (post & g & Hfind & -> & _ & _ & Hg).
    apply (update_keeps stamps_ok _ _ _ post); try done.
    apply Hg. apply find_post_id in Hfind as [_ Hin].
    by apply (proj1 (Forall_forall _ _) Hall).
  - destruct o; cbn [op_transition] in Eo; try done; cbn [step offered] in *;
      try done.
    + cbn [addPost posts]. apply Forall_cons. split; [|done].
      destruct Hoff as [Hst _]. split; by rewrite Hst.
    + cbn [deletePost posts]. by apply Forall_filter_bool.
Qed.

(** X14. Under the approval queue the stamps follow the status: over a run
    the page offers, from a workspace with distinct post identifiers, every
    post past [pending] has its [approvedAt] and every published post has its
    [publishedAt], provided this held at the start (it does when there are no
    posts yet). *)
Theorem stamps_follow_status (formatDateTime : option jsstring → jsstring)
    (s : AppState) (ops : list op) :
  queue_ok s → Forall stamps_ok (posts s) →
  offered_run formatDateTime s ops →
  Forall stamps_ok (posts (run formatDateTime s ops)).
Proof.
  revert s. induction ops as [|o ops IH]; intros s Hok Hall Hoff; [done|].
  destruct Hoff as [Ho Hoff]. cbn. apply IH; [| |done].
  - by apply offered_step.
  - destruct Hok as [Hnd _]. by apply offered_step_stamps.
Qed.

Lemma stamps_follow_status_witness :
  let s := mkState [] [] [] in
  let ops := [OpAddPost (sample_post (js "p1") pending None) (js "e0") sample_time;
              OpApprove (js "p1") (js "e1") sample_time;
              OpPublish (js "p1") (js "e3") sample_time] in
  Forall stamps_ok (posts (run (fun _ => js "No schedule") s ops)).
Proof.
  cbv zeta. apply stamps_follow_status.
  - split; cbn; [apply NoDup_nil_2 | constructor].
  - constructor.
  - cbn. split_and!; try done.
    + apply not_elem_of_nil.
    + eexists. split; [apply list_elem_of_here | split; reflexivity].
    + eexists. split; [apply list_elem_of_here | split; reflexivity].
Defined.

(** ** The statistics bar *)

Lemma count_status_cons (st : PostStatus) (p : ScheduledPost)
    (ps : list ScheduledPost) :
  count_status st (p :: ps)
  = ((if status_eqb (p_status p) st then 1 else 0) + count_status st ps)%nat.
Proof.
  unfold count_status. cbn. by destruct (status_eqb (p_status p) st).
Qed.

Lemma count_status_update (st : PostStatus) (ps : list ScheduledPost)
    (i : jsstring) (g : ScheduledPost → ScheduledPost) (post : ScheduledPost) :
  NoDup (List.map p_id ps) → find_post i ps = Some post →
  (count_status st (List.map (update_post i g) ps)
   + (if status_eqb (p_status post) st then 1 else 0)
   = count_status st ps
     + (if status_eqb (p_status (g post)) st then 1 else 0))%nat.
Proof.
  induction ps as [|x ps IH]; [done|]. cbn [List.map].
  intros [Hx Hnd]%NoDup_cons Hfind. rewrite !count_status_cons.
  unfold find_post in Hfind. cbn in Hfind. unfold update_post at 1.
  destruct (same_id (p_id x) i) eqn:E.
  - injection Hfind as <-. apply same_id_true in E.
    rewrite map_update_absent by (apply find_post_None; by rewrite <- E).
    lia.
  - specialize (IH Hnd Hfind). lia.
Qed.

(** X15. The cards of the statistics bar count every post that is not
    [scheduled] exactly once: pending, approved and published counts and the
    number of scheduled posts add up to the number of posts. *)
Theorem stats_partition (ts : list Template) (ps : list ScheduledPost) :
  (pendingCount (StatsBar ts ps) + approvedCount (StatsBar ts ps)
   + publishedCount (StatsBar ts ps) + count_status scheduled ps
   = length ps)%nat ∧
  templateCount (StatsBar ts ps) = length ts.
Proof.
  split; [|done]. cbn. induction ps as [|p ps IH]; [done|].
  rewrite !count_status_cons. cbn [length].
  destruct (p_status p); cbn; lia.
Qed.

(** X16. The cards follow the buttons.  In a workspace with distinct post
    identifiers, an offered Approve takes one post from the pending card to
    the approved card, and an offered Publish adds one post to the published
    card and takes it from the approved card or, for a scheduled post, from no
    card. *)
Theorem stats_follow_buttons (ts : list Template) (s : AppState)
    (id newId now : jsstring) :
  NoDup (List.map p_id (posts s)) →
  (offered s (OpApprove id newId now) →
   let s' := handleApprove s id newId now in
   (pendingCount (StatsBar ts (posts s')) + 1
    = pendingCount (StatsBar ts (posts s)))%nat ∧
   (approvedCount (StatsBar ts (posts s'))
    = approvedCount (StatsBar ts (posts s)) + 1)%nat ∧
   publishedCount (StatsBar ts (posts s'))
   = publishedCount (StatsBar ts (posts s))) ∧
  (offered s (OpPublish id newId now) →
   let s' := handlePublish s id newId now in
   (publishedCount (StatsBar ts (posts s'))
    = publishedCount (StatsBar ts (posts s)) + 1)%nat ∧
   pendingCount (StatsBar ts (posts s'))
   = pendingCount (StatsBar ts (posts s)) ∧
   (approvedCount (StatsBar ts (posts s')) + count_status scheduled (posts s') + 1
    = approvedCount (StatsBar ts (posts s)) + count_status scheduled (posts s))%nat).
Proof.
  intros Hnd. split.
  - intros (post & Hin & <- & Hgate%status_eqb_eq) s'. subst s'.
    pose proof (find_post_elem _ _ Hnd Hin) as Hfind.
    unfold handleApprove. rewrite Hfind. cbn [posts StatsBar pendingCount
      approvedCount publishedCount].
    pose proof (fun st => count_status_update st (posts s) (p_id post)
      (fun item => with_approved item approved now) post Hnd Hfind) as H.
    pose proof (H pending) as H1. pose proof (H approved) as H2.
    pose proof (H published) as H3. cbn in H1, H2, H3.
    rewrite Hgate in H1, H2, H3. cbn in H1, H2, H3. lia.
  - intros (post & Hin & <- & Hgate) s'. subst s'.
    pose proof (find_post_elem _ _ Hnd Hin) as Hfind.
    unfold handlePublish. rewrite Hfind. cbn [posts StatsBar pendingCount
      approvedCount publishedCount].
    pose proof (fun st => count_status_update st (posts s) (p_id post)
      (fun item => with_published item published now) post Hnd Hfind) as H.
    pose proof (H pending) as H1. pose proof (H approved) as H2.
    pose proof (H published) as H3. pose proof (H scheduled) as H4.
    cbn in H1, H2, H3, H4. unfold offersPublish in Hgate.
    destruct (p_status post); cbn in *; try done; lia.
Qed.

Lemma stats_follow_buttons_witness :
  let s := mkState [] [sample_post (js "p1") pending None;
                       sample_post (js "p2") approved None] [] in
  (approvedCount (StatsBar [] (posts (handleApprove s (js "p1") (js "e1") sample_time)))
   = approvedCount (StatsBar [] (posts s)) + 1)%nat.
Proof.
  cbv zeta.
  apply (proj1 (stats_follow_buttons []
           (mkState [] [sample_post (js "p1") pending None;
                        sample_post (js "p2") approved None] [])
           (js "p1") (js "e1") sample_time
           ltac:(cbn; repeat constructor;
                 rewrite ?list_elem_of_singleton; try apply not_elem_of_nil;
                 discriminate))).
  eexists. split; [apply list_elem_of_here | split; reflexivity].
Defined.

Lemma leader_fold (a : Template) (l : list Template) :
  ∃ r,
    foldl (fun acc template =>
             match acc with
             | None => Some template
             | Some leader =>
                 if t_usageCount leader <? t_usageCount template
                 then Some template else acc
             end) (Some a) l = Some r ∧
    (∀ t, t ∈ l → t_usageCount t ≤ t_usageCount r) ∧
    ((r = a ∧ ∀ t, t ∈ l → t_usageCount t ≤ t_usageCount a) ∨
     (∃ i, l !! i = Some r ∧ t_usageCount a < t_usageCount r ∧
           ∀ j t, (j < i)%nat → l !! j = Some t →
                  t_usageCount t < t_usageCount r)).
Proof.
  revert a. induction l as [|x l IH]; intros a.
  - exists a. split; [done|]. split; [by intros t ?%elem_of_nil|].
    left. split; [done | by intros t ?%elem_of_nil].
  - cbn [foldl]. destruct (Z.ltb_spec (t_usageCount a) (t_usageCount x)) as [Hlt|Hge].
    + destruct (IH x) as (r & Hr & Hmax & Hcase). exists r. split; [done|].
      assert (Hxr : t_usageCount x ≤ t_usageCount r).
      { destruct Hcase as [[-> _]|(i & _ & ? & _)]; lia. }
      split.
      * intros t [->|Hin]%elem_of_cons; [done | by apply Hmax].
      * right. destruct Hcase as [[-> _]|(i & Hi & Hxi & Hbefore)].
        -- exists 0%nat. split; [done|]. split; [done|]. intros j t Hj. lia.
        -- exists (S i). split; [done|]. split; [lia|].
           intros [|j] t Hj Ht; [injection Ht as <-; lia|].
           apply (Hbefore j t); [lia | done].
    + destruct (IH a) as (r & Hr & Hmax & Hcase). exists r. split; [done|].
      assert (Har : t_usageCount a ≤ t_usageCount r).
      { destruct Hcase as [[-> _]|(i & _ & ? & _)]; lia. }
      split.
      * intros t [->|Hin]%elem_of_cons; [lia | by apply Hmax].
      * destruct Hcase as [[-> Hall]|(i & Hi & Hai & Hbefore)].
        -- left. split; [done|].
           intros t [->|Hin]%elem_of_cons; [done | by apply Hall].
        -- right. exists (S i). split; [done|]. split; [done|].
           intros [|j] t Hj Ht; [injection Ht as <-; lia|].
           apply (Hbefore j t); [lia | done].
Qed.

(** X17. The "all-star" of the statistics bar is missing exactly when there
    is no template; otherwise it is a template of the list with the largest
    usage count, and among those with the largest count the first one. *)
Theorem usageLeader_first_maximum (ts : list Template) :
  (usageLeader ts = None ↔ ts = []) ∧
  (∀ r, usageLeader ts = Some r →
     ∃ i, ts !! i = Some r ∧
          (∀ t, t ∈ ts → t_usageCount t ≤ t_usageCount r) ∧
          (∀ j t, (j < i)%nat → ts !! j = Some t →
                  t_usageCount t < t_usageCount r)).
Proof.
  destruct ts as [|a l].
  - split; [done|]. intros r H. discriminate H.
  - unfold usageLeader. cbn [foldl].
    destruct (leader_fold a l) as (r & Hr & Hmax & Hcase).
    rewrite Hr. split; [done|].
    intros r' [= <-].
    assert (Har : t_usageCount a ≤ t_usageCount r).
    { destruct Hcase as [[-> _]|(i & _ & ? & _)]; lia. }
    destruct Hcase as [[-> Hall]|(i & Hi & Hai & Hbefore)].
    + exists 0%nat. split; [done|]. split.
      * intros t [->|Hin]%elem_of_cons; [done | by apply Hall].
      * intros j t Hj. lia.
    + exists (S i). split; [done|]. split.
      * intros t [->|Hin]%elem_of_cons; [done | by apply Hmax].
      * intros [|j] t Hj Ht; [injection Ht as <-; lia|].
        apply (Hbefore j t); [lia | done].
Qed.

Lemma usageLeader_first_maximum_witness :
  ∃ i, [sample_template (js "t1") 3; sample_template (js "t2") 5;
        sample_template (js "t3") 5] !! i
       = Some (sample_template (js "t2") 5) ∧
       ∀ t, t ∈ [sample_template (js "t1") 3; sample_template (js "t2") 5;
                 sample_template (js "t3") 5] →
            t_usageCount t ≤ 5.
Proof.
  destruct (proj2 (usageLeader_first_maximum
              [sample_template (js "t1") 3; sample_template (js "t2") 5;
               sample_template (js "t3") 5])
              (sample_template (js "t2") 5) eq_refl)
    as (i & Hi & Hmax & _).
  exists i. by split.
Defined.

(** ** More on the extractor and the merger *)

Lemma merge_no_captures (inherited_text : jsstring → jsstring)
    (values : gmap jsstring jsstring) (s : jsstring) :
  captures s = [] → mergeTemplateContent inherited_text s values = s.
Proof.
  induction s as [|capture rest Hne Hnot IH|c t Hm IH] using scan_ind.
  - done.
  - by rewrite captures_token.
  - rewrite captures_literal, merge_literal_step by done.
    intros H. by rewrite IH.
Qed.

Lemma parsePlaceholders_no_captures (s : jsstring) :
  captures s = [] → parsePlaceholders s = [].
Proof. intros H. by rewrite parsePlaceholders_fold, H. Qed.

Lemma captures_no_lbrace (s : jsstring) : lbrace ∉ s → captures s = [].
Proof.
  induction s as [|c t IH]; [done|]. intros [Hc Ht]%not_elem_of_cons.
  rewrite captures_literal by (apply match_here_not_lbrace; congruence).
  by apply IH.
Qed.

(** X18. The merger reads the mapping only at the trimmed captures of the
    body: two mappings that agree there give the same message, so an entry
    under any other name, such as a value left over from another template,
    does not show. *)
Theorem merge_reads_only_names (inherited_text : jsstring → jsstring)
    (template : jsstring) (values values' : gmap jsstring jsstring) :
  (∀ capture, capture ∈ captures template →
     values !! trim capture = values' !! trim capture) →
  mergeTemplateContent inherited_text template values
  = mergeTemplateContent inherited_text template values'.
Proof.
  induction template as [|capture rest Hne Hnot IH|c t Hm IH] using scan_ind;
    intros Hagree.
  - done.
  - rewrite captures_token in Hagree by done.
    rewrite !merge_token_step by done. unfold merge_token, get_property.
    rewrite (Hagree capture) by apply list_elem_of_here.
    rewrite IH; [done|]. intros x Hx. apply Hagree, elem_of_cons. by right.
  - rewrite captures_literal in Hagree by done.
    rewrite !merge_literal_step by done. by rewrite IH.
Qed.

Lemma merge_reads_only_names_witness :
  mergeTemplateContent sample_inherited_text (js "Meet {feature_name}.")
    {[ js "feature_name" := js "Flow"; js "hook" := js "stale" ]}
  = mergeTemplateContent sample_inherited_text (js "Meet {feature_name}.")
      {[ js "feature_name" := js "Flow" ]}.
Proof.
  apply merge_reads_only_names. vm_compute captures.
  intros capture ->%list_elem_of_singleton. by vm_compute.
Defined.

(** X19. A body without padded tokens comes back unchanged when the mapping
    has none of its names and none of them is the name of a member of
    [Object.prototype]. *)
Theorem merge_without_values (inherited_text : jsstring → jsstring)
    (template : jsstring) (values : gmap jsstring jsstring) :
  Forall (fun capture => trim capture = capture ∧ values !! capture = None ∧
                         capture ∉ object_prototype_names)
         (captures template) →
  mergeTemplateContent inherited_text template values = template.
Proof.
  induction template as [|capture rest Hne Hnot IH|c t Hm IH] using scan_ind.
  - done.
  - rewrite captures_token by done.
    intros [(Htrim & Hnone & Hproto) Hall]%Forall_cons.
    rewrite merge_token_step by done. unfold merge_token.
    rewrite Htrim, get_property_absent, IH by done. reflexivity.
  - rewrite captures_literal by done. intros Hall.
    rewrite merge_literal_step by done. by rewrite IH.
Qed.

Lemma merge_without_values_witness :
  mergeTemplateContent sample_inherited_text
    (js "Meet {feature_name}: {feature_summary}.") ∅
  = js "Meet {feature_name}: {feature_summary}.".
Proof.
  apply merge_without_values. vm_compute captures.
  repeat constructor; try (by vm_compute);
    vm_compute; intros H;
    repeat (apply elem_of_cons in H as [H|H]; [discriminate H|]);
    by apply elem_of_nil in H.
Defined.

(** X20. For every body, the extractor returns names without repetition,
    each of them not empty, trimmed and free of braces. *)
Theorem parsePlaceholders_wellformed (template : jsstring) :
  NoDup (parsePlaceholders template) ∧
  Forall (fun n => clean n ∧ (lbrace ∉ n) ∧ (rbrace ∉ n))
         (parsePlaceholders template).
Proof.
  split.
  - rewrite parsePlaceholders_fold.
    destruct (set_add_fold
                (List.filter truthy
                   (List.map (fun capture => trim (remove_braces capture))
                             (captures template))) [] NoDup_nil_2)
      as (new & -> & Hnd & _). exact Hnd.
  - apply Forall_forall. intros n Hn.
    pose proof (parsePlaceholders_names _ _ Hn) as (Hne & Hl & Hr).
    apply parsePlaceholders_elem in Hn as (_ & capture & _ & ->).
    split; [|done]. split; [done | apply trim_idem].
Qed.

(** X21. A body in which no [{] is ever closed has nothing to fill: when it
    holds no [}], or no [{], the extractor returns no name and the merger
    returns the body as it is, whatever the mapping. *)
Theorem unbalanced_body_is_plain (inherited_text : jsstring → jsstring)
    (template : jsstring) (values : gmap jsstring jsstring) :
  lbrace ∉ template ∨ rbrace ∉ template →
  parsePlaceholders template = [] ∧
  mergeTemplateContent inherited_text template values = template.
Proof.
  intros H.
  assert (Hcaps : captures template = []).
  { destruct H; [by apply captures_no_lbrace | by apply captures_no_rbrace]. }
  split; [by apply parsePlaceholders_no_captures | by apply merge_no_captures].
Qed.

Lemma unbalanced_body_is_plain_witness :
  parsePlaceholders (js "Save {now and {later") = [] ∧
  mergeTemplateContent sample_inherited_text (js "Save {now and {later")
    {[ js "now" := js "x" ]}
  = js "Save {now and {later".
Proof.
  apply unbalanced_body_is_plain. right. vm_compute.
  intros H; repeat (apply elem_of_cons in H as [H|H]);
    solve [discriminate H | by apply elem_of_nil in H].
Defined.

(** X22. A filled message has nothing left to fill.  When no token of the
    body has a [{] between its braces, every extracted name has an entry and
    no value contains [{], the expression matches nowhere in the merged
    message: the extractor finds no name in it, and merging it again, with
    any mapping, changes nothing. *)
Theorem filled_message_is_final (inherited_text : jsstring → jsstring)
    (template : jsstring) (values values' : gmap jsstring jsstring) :
  nested_free template →
  (∀ n, n ∈ parsePlaceholders template → is_Some (values !! n)) →
  (∀ k v, values !! k = Some v → lbrace ∉ v) →
  parsePlaceholders (mergeTemplateContent inherited_text template values) = [] ∧
  mergeTemplateContent inherited_text
    (mergeTemplateContent inherited_text template values) values'
  = mergeTemplateContent inherited_text template values.
Proof.
  intros Hfree Hall Hvalues.
  pose proof (match_run_no_captures _ Idle
                (filled_message_is_final_core inherited_text template values
                   Hfree Hall Hvalues)) as Hcaps.
  split; [by apply parsePlaceholders_no_captures | by apply merge_no_captures].
Qed.

Lemma filled_message_is_final_witness :
  let template := js "Hi {a} and { a }!" in
  let values : gmap jsstring jsstring := {[ js "a" := js "x}" ]} in
  parsePlaceholders (mergeTemplateContent sample_inherited_text template values)
  = [] ∧
  mergeTemplateContent sample_inherited_text
    (mergeTemplateContent sample_inherited_text template values) ∅
  = mergeTemplateContent sample_inherited_text template values.
Proof.
  cbv zeta.
  apply (filled_message_is_final sample_inherited_text (js "Hi {a} and { a }!")
           {[ js "a" := js "x}" ]} ∅).
  - unfold nested_free. vm_compute captures.
    repeat constructor; intros H; repeat (apply elem_of_cons in H as [H|H]);
      solve [discriminate H | by apply elem_of_nil in H].
  - vm_compute parsePlaceholders. intros n ->%list_elem_of_singleton.
    exists (js "x}"). by vm_compute.
  - intros k v [_ <-]%lookup_singleton_Some. vm_compute.
    intros H; repeat (apply elem_of_cons in H as [H|H]);
      solve [discriminate H | by apply elem_of_nil in H].
Defined.

(** ** The platform buttons *)

Lemma platform_eqb_eq (a b : Platform) : platform_eqb a b = true ↔ a = b.
Proof. destruct a, b; cbn; split; congruence. Qed.

Lemma existsb_platform (p : Platform) (ps : list Platform) :
  List.existsb (platform_eqb p) ps = true ↔ p ∈ ps.
Proof.
  rewrite List.existsb_exists, list_elem_of_In. split.
  - by intros (x & Hin & ->%platform_eqb_eq).
  - intros Hin. exists p. split; [done | by apply platform_eqb_eq].
Qed.

Lemma filter_platform_absent (p : Platform) (ps : list Platform) :
  p ∉ ps → List.filter (fun item => negb (platform_eqb item p)) ps = ps.
Proof.
  induction ps as [|x ps IH]; cbn; [done|]. intros [Hx Hps]%not_elem_of_cons.
  destruct (platform_eqb x p) eqn:E.
  - apply platform_eqb_eq in E. congruence.
  - cbn. by rewrite IH.
Qed.

(** X23. A click on a platform button flips that platform and no other: the
    platform is selected afterwards exactly when it was not before, every
    other platform is selected exactly when it was, a selection without
    repetition stays without repetition, and two clicks on a platform that
    was not selected give the selection back. *)
Theorem togglePlatform_flips (ps : list Platform) (p : Platform) :
  (p ∈ togglePlatform ps p ↔ p ∉ ps) ∧
  (∀ q, q ≠ p → (q ∈ togglePlatform ps p ↔ q ∈ ps)) ∧
  (NoDup ps → NoDup (togglePlatform ps p)) ∧
  (p ∉ ps → togglePlatform (togglePlatform ps p) p = ps).
Proof.
  assert (Hdef : togglePlatform ps p
                 = if List.existsb (platform_eqb p) ps
                   then List.filter (fun item => negb (platform_eqb item p)) ps
                   else ps ++ [p]) by reflexivity.
  rewrite !Hdef. clear Hdef.
  destruct (List.existsb (platform_eqb p) ps) eqn:E.
  - apply existsb_platform in E. split_and!.
    + rewrite list_elem_of_In, List.filter_In. split; [|done].
      intros [_ H]. apply negb_true_iff in H.
      by rewrite (proj2 (platform_eqb_eq p p) eq_refl) in H.
    + intros q Hq. rewrite !list_elem_of_In, List.filter_In.
      split; [tauto|]. intros H. split; [done|]. apply negb_true_iff.
      destruct (platform_eqb q p) eqn:Eq; [|done].
      by apply platform_eqb_eq in Eq.
    + intros Hnd. clear E. induction Hnd as [|x l Hx Hnd IH]; cbn; [constructor|].
      destruct (negb (platform_eqb x p)); [|done].
      apply NoDup_cons. split; [|done].
      rewrite list_elem_of_In, List.filter_In, <- list_elem_of_In. tauto.
    + done.
  - assert (Hp : p ∉ ps).
    { intros H%existsb_platform. congruence. }
    split_and!.
    + split; [done|]. intros _. apply elem_of_app. right. apply list_elem_of_here.
    + intros q Hq. rewrite elem_of_app, list_elem_of_singleton. tauto.
    + intros Hnd. apply NoDup_app. split_and!; [done| |apply NoDup_singleton].
      by intros x Hx ->%list_elem_of_singleton.
    + intros _. unfold togglePlatform.
      rewrite (proj2 (existsb_platform p (ps ++ [p])))
        by (apply elem_of_app; right; apply list_elem_of_here).
      rewrite List.filter_app, filter_platform_absent by done. cbn.
      rewrite (proj2 (platform_eqb_eq p p) eq_refl). cbn. apply app_nil_r.
Qed.

Lemma togglePlatform_flips_witness :
  togglePlatform (togglePlatform [Twitter; LinkedIn] Facebook) Facebook
  = [Twitter; LinkedIn].
Proof.
  apply (togglePlatform_flips [Twitter; LinkedIn] Facebook).
  intros H; repeat (apply elem_of_cons in H as [H|H]);
    solve [discriminate H | by apply elem_of_nil in H].
Defined.

(** ** Selections after the templates change *)

Lemma existsb_selected (ts : list Template) (sel : option jsstring) :
  List.existsb (fun tpl => bool_decide (Some (t_id tpl) = sel)) ts = true ↔
  ∃ i, sel = Some i ∧ i ∈ List.map t_id ts.
Proof.
  rewrite List.existsb_exists. split.
  - intros (x & Hin & Hx%bool_decide_eq_true). exists (t_id x).
    split; [done|]. by apply list_elem_of_In, List.in_map.
  - intros (i & -> & Hin). apply list_elem_of_In, List.in_map_iff in Hin
      as (x & <- & Hin).
    exists x. split; [done | by apply bool_decide_eq_true].
Qed.

(** X24. After the page has reconciled the selected template with the
    templates, the selection is missing exactly when there is no template,
    and otherwise it is the identifier of a template of the list; a non-empty
    selection that is in the list is kept, and reconciling twice is
    reconciling once. *)
Theorem reconcileSelection_valid (ts : list Template) (sel : option jsstring) :
  (reconcileSelection ts sel = None ↔ ts = []) ∧
  (∀ i, reconcileSelection ts sel = Some i → i ∈ List.map t_id ts) ∧
  (∀ i, sel = Some i → i ≠ [] → i ∈ List.map t_id ts →
        reconcileSelection ts sel = sel) ∧
  reconcileSelection ts (reconcileSelection ts sel) = reconcileSelection ts sel.
Proof.
  destruct ts as [|first rest].
  - split_and!; try done. intros i _ _ Hin. by apply elem_of_nil in Hin.
  - unfold reconcileSelection.
    assert (Hfirst : t_id first ∈ List.map t_id (first :: rest))
      by apply list_elem_of_here.
    destruct (truthy_opt sel) eqn:Htruthy; cbn [negb orb].
    + destruct (List.existsb _ (first :: rest)) eqn:E; cbn [negb].
      * pose proof E as (i & -> & Hin)%existsb_selected.
        split_and!; try done.
        -- by intros j [= <-].
        -- by rewrite Htruthy, E.
      * split_and!; try done.
        -- by intros i [= <-].
        -- intros i -> Hne Hin. exfalso.
           assert (List.existsb (fun tpl => bool_decide (Some (t_id tpl) = Some i))
                     (first :: rest) = true) as E'
             by (apply existsb_selected; by exists i).
           congruence.
        -- match goal with |- (if ?b then _ else _) = _ => by destruct b end.
    + split_and!; try done.
      * by intros i [= <-].
      * intros i -> Hne _. cbn in Htruthy. by destruct i.
      * match goal with |- (if ?b then _ else _) = _ => by destruct b end.
Qed.

Lemma reconcileSelection_valid_witness :
  reconcileSelection [sample_template (js "t1") 3; sample_template (js "t2") 5]
    (Some (js "t2")) = Some (js "t2").
Proof.
  apply (proj1 (proj2 (proj2 (reconcileSelection_valid
           [sample_template (js "t1") 3; sample_template (js "t2") 5]
           (Some (js "t2"))))) (js "t2")).
  - reflexivity.
  - discriminate.
  - vm_compute. apply elem_of_cons. right. apply list_elem_of_here.
Defined.

Lemma find_template_existsb_true (id : jsstring) (ts : list Template) :
  List.existsb (fun template => same_id (t_id template) id) ts = true ↔
  is_Some (find_template id ts).
Proof.
  rewrite find_template_existsb. apply bool_decide_eq_true.
Qed.

(** X25. After the composer has reconciled itself with the templates, the
    form can be submitted exactly when there is a template.  A composer whose
    template is still there is left alone; one whose template is gone moves
    to the first template, takes its platforms and drops the values typed for
    the old one. *)
Theorem reconcileComposer_valid (inherited_text : jsstring → jsstring)
    (ts : list Template) (c : ComposerState) (newId now : jsstring) :
  (is_Some (submit inherited_text ts (reconcileComposer ts c) newId now)
   ↔ ts ≠ []) ∧
  (is_Some (find_template (c_templateId c) ts) →
   reconcileComposer ts c = c) ∧
  (∀ first rest, ts = first :: rest →
     find_template (c_templateId c) ts = None →
     c_templateId (reconcileComposer ts c) = t_id first ∧
     c_platforms (reconcileComposer ts c) = t_platforms first ∧
     c_values (reconcileComposer ts c) = ∅).
Proof.
  split_and!.
  - destruct ts as [|first rest].
    + cbn. split; [by intros [? ?] | done].
    + split; [done|]. intros _. unfold reconcileComposer.
      destruct (List.existsb _ (first :: rest)) eqn:E.
      * apply find_template_existsb_true in E as [tpl Htpl].
        unfold submit. rewrite Htpl. by eexists.
      * unfold submit, find_template. cbn.
        rewrite (proj2 (same_id_true (t_id first) (t_id first)) eq_refl).
        by eexists.
  - intros Hsome. destruct ts as [|first rest]; [by destruct Hsome|].
    unfold reconcileComposer.
    by rewrite (proj2 (find_template_existsb_true _ _) Hsome).
  - intros first rest -> Hnone. unfold reconcileComposer.
    destruct (List.existsb _ (first :: rest)) eqn:E; [|done].
    apply find_template_existsb_true in E as [tpl Htpl]. congruence.
Qed.

Lemma reconcileComposer_valid_witness :
  let ts := [sample_template (js "t2") 5] in
  c_values (reconcileComposer ts (sample_composer (js "t1"))) = ∅.
Proof.
  cbv zeta.
  apply (proj2 (proj2 (reconcileComposer_valid sample_inherited_text
           [sample_template (js "t2") 5]
           (sample_composer (js "t1")) (js "n1") sample_time))
           (sample_template (js "t2") 5) []); reflexivity.
Defined.

(** ** Composing *)

(** X26. Composing keeps the queue in order.  With an unknown template the
    composer does nothing: no post, no usage, no entry.  With a known one and
    a fresh identifier the new post is put in front, pending and without
    stamps, the identifiers stay distinct, and scheduled posts keep their
    schedule and posts their stamps. *)
Theorem composePost_keeps_queue (inherited_text : jsstring → jsstring)
    (s : AppState) (c : ComposerState)
    (newId entryId now loggedAt : jsstring) :
  (find_template (c_templateId c) (templates s) = None →
   composePost inherited_text s c newId entryId now loggedAt = s) ∧
  (∀ tpl, find_template (c_templateId c) (templates s) = Some tpl →
     newId ∉ List.map p_id (posts s) →
     let s' := composePost inherited_text s c newId entryId now loggedAt in
     (∃ post, posts s' = post :: posts s ∧
              p_id post = newId ∧ p_status post = pending ∧
              p_createdAt post = now ∧
              p_approvedAt post = None ∧ p_publishedAt post = None ∧
              p_templateName post = t_name tpl ∧
              p_finalMessage post
              = mergeTemplateContent inherited_text (t_content tpl)
                  (c_values c)) ∧
     (queue_ok s → queue_ok s') ∧
     (Forall stamps_ok (posts s) → Forall stamps_ok (posts s'))).
Proof.
  unfold composePost, submit. split.
  - by intros ->.
  - intros tpl -> Hfresh. cbn [addPost posts]. split_and!.
    + eexists. split_and!; reflexivity.
    + intros [Hnd Hok]. split; cbn [posts].
      * cbn. by apply NoDup_cons.
      * apply Forall_cons. split; [|done]. intros H. discriminate H.
    + intros Hall. apply Forall_cons. split; [|done].
      split; cbn; [done | intros H; discriminate H].
Qed.

Lemma composePost_keeps_queue_witness :
  let s := mkState [sample_template (js "t1") 3] [] [] in
  composePost sample_inherited_text s (sample_composer (js "t9")) (js "p1")
    (js "e1") sample_time sample_time = s.
Proof.
  cbv zeta.
  apply (composePost_keeps_queue sample_inherited_text
           (mkState [sample_template (js "t1") 3] [] [])
           (sample_composer (js "t9")) (js "p1") (js "e1") sample_time
           sample_time).
  reflexivity.
Defined.

Lemma typeFields_cons (c : ComposerState) (k v : jsstring)
    (fields : list (jsstring * jsstring)) :
  typeFields c ((k, v) :: fields) = typeFields (setField c k v) fields.
Proof. reflexivity. Qed.

Lemma typeFields_values (fields : list (jsstring * jsstring))
    (c : ComposerState) :
  c_templateId (typeFields c fields) = c_templateId c ∧
  (∀ k, k ∈ List.map fst fields → is_Some (c_values (typeFields c fields) !! k)) ∧
  (∀ k v, c_values (typeFields c fields) !! k = Some v →
          c_values c !! k = Some v ∨ (k, v) ∈ fields).
Proof.
  revert c. induction fields as [|[k0 v0] fields IH]; intros c.
  - split_and!; [done | by intros k ?%elem_of_nil | by left].
  - rewrite typeFields_cons.
    destruct (IH (setField c k0 v0)) as (Hid & Hkeys & Hvals).
    split_and!.
    + by rewrite Hid.
    + intros k [->|Hin]%elem_of_cons; [|by apply Hkeys].
      destruct (decide (k0 ∈ List.map fst fields)) as [Hlater|Hlast];
        [by apply Hkeys|].
      destruct (c_values (typeFields (setField c k0 v0) fields) !! k0) eqn:E;
        [by eexists|].
      exfalso. clear Hkeys Hvals Hid IH.
      revert c E. induction fields as [|[k1 v1] fields IH]; intros c E.
      * cbn in E. by rewrite lookup_insert_eq in E.
      * cbn [List.map] in Hlast. apply not_elem_of_cons in Hlast as [Hne Hlast].
        rewrite typeFields_cons in E. cbn [fst] in Hne.
        assert (Hswap : setField (setField c k0 v0) k1 v1
                        = setField (setField c k1 v1) k0 v0).
        { unfold setField. cbn. f_equal. by apply insert_insert_ne. }
        rewrite Hswap in E. by apply (IH Hlast (setField c k1 v1)).
    + intros k v Hkv. destruct (Hvals k v Hkv) as [Hold|Hin].
      * cbn in Hold. apply lookup_insert_Some in Hold as [[<- <-]|[_ Hold]].
        -- right. apply list_elem_of_here.
        -- by left.
      * right. apply elem_of_cons. by right.
Qed.

(** X27. A composer that is filled in stages a message without
    placeholders.  Select a template whose tokens have no [{] between their
    braces, type a text without [{] into fields that cover every extracted
    name, and submit: the post carries the template's name, and the extractor
    finds no name in its final message.  Values typed for a template selected
    before play no part. *)
Theorem filled_composer_stages_final_message
    (inherited_text : jsstring → jsstring) (ts : list Template)
    (prev : ComposerState) (id : jsstring) (tpl : Template)
    (fields : list (jsstring * jsstring)) (newId now : jsstring) :
  find_template id ts = Some tpl →
  nested_free (t_content tpl) →
  (∀ n, n ∈ parsePlaceholders (t_content tpl) → n ∈ List.map fst fields) →
  Forall (fun field => lbrace ∉ field.2) fields →
  ∃ post,
    submit inherited_text ts (typeFields (selectTemplate ts prev id) fields)
      newId now
    = Some post ∧
    p_templateName post = t_name tpl ∧
    p_status post = pending ∧
    parsePlaceholders (p_finalMessage post) = [].
Proof.
  intros Hfind Hfree Hcover Htexts.
  destruct (typeFields_values fields (selectTemplate ts prev id))
    as (Hid & Hkeys & Hvals).
  unfold submit. rewrite Hid. cbn [selectTemplate c_templateId].
  rewrite Hfind. eexists. split; [reflexivity|]. cbn.
  split_and!; try done.
  apply parsePlaceholders_no_captures, (match_run_no_captures _ Idle).
  apply (filled_message_is_final_core inherited_text (t_content tpl));
    try done.
  - intros n Hn. by apply Hkeys, Hcover.
  - intros k v Hkv. destruct (Hvals k v Hkv) as [Hold|Hin].
    + cbn in Hold. by rewrite lookup_empty in Hold.
    + by apply (proj1 (Forall_forall _ _) Htexts (k, v)).
Qed.

Lemma filled_composer_stages_final_message_witness :
  ∃ post,
    submit sample_inherited_text [sample_template (js "t1") 3]
      (typeFields (selectTemplate [sample_template (js "t1") 3]
                     (sample_composer (js "t9")) (js "t1"))
         [(js "feature_name", js "Flow"); (js "feature_summary", js "one queue")])
      (js "p1") sample_time = Some post ∧
    p_finalMessage post = js "Meet Flow: one queue.".
Proof.
  destruct (filled_composer_stages_final_message sample_inherited_text
              [sample_template (js "t1") 3] (sample_composer (js "t9"))
              (js "t1") (sample_template (js "t1") 3)
              [(js "feature_name", js "Flow");
               (js "feature_summary", js "one queue")]
              (js "p1") sample_time) as (post & Hpost & _).
  - reflexivity.
  - unfold nested_free. vm_compute captures.
    repeat constructor; intros H; repeat (apply elem_of_cons in H as [H|H]);
      solve [discriminate H | by apply elem_of_nil in H].
  - vm_compute parsePlaceholders. vm_compute List.map.
    intros n Hn. exact Hn.
  - repeat constructor; vm_compute;
      intros H; repeat (apply elem_of_cons in H as [H|H]);
      solve [discriminate H | by apply elem_of_nil in H].
  - exists post. split; [done|].
    vm_compute in Hpost. injection Hpost as <-. reflexivity.
Defined.
